(** * minikube: cluster lifecycle orchestrator, shallow embedding

    The Go packages that the lifecycle properties talk about are embedded
    below, one Rocq module per Go package:

    - [errors]   : error values, [errors.Wrap] and [errors.Cause];
    - [effect]   : the trace monad in which code that talks to the outside
                   world (guest, disk, network) is written;
    - [config], [node] : pkg/minikube/config (types) and pkg/minikube/node;
    - [state], [sshdriver] : libmachine machine states, pkg/drivers/ssh;
    - [machine]  : pkg/minikube/machine, [LocalClient.Create];
    - [runner]   : libmachine/runner, [SSHRunner];
    - [cmd]      : cmd/minikube/cmd, [runDelete];
    - [kubeadm]  : pkg/minikube/bootstrapper/kubeadm.

    Everything a function obtains from outside the process is supplied by
    a _world_: a record of oracles, each of which sees the history of
    calls made so far.  A property proved for every world therefore holds
    for every behaviour of the guest, the disk and the network.

    The first part of the file holds the definitions, the second part the
    lemmas and theorems about the life cycle, the third part further
    properties of the same code. *)

From stdpp Require Import base strings list gmap pretty.
From Stdlib Require Import ZArith Lia Ascii.

Open Scope Z_scope.
Open Scope string_scope.
Open Scope list_scope.

(* ===================================================================== *)
(** * Part I: definitions                                                 *)
(* ===================================================================== *)

(** ** Go error values *)

Module errors.

(** An error is built by [errors.New]/[fmt.Errorf], by wrapping another
    error with a message, or is one of the typed errors the code inspects
    with a type switch or a predicate. *)
Inductive error : Type :=
| New (msg : string)
| Wrap (cause : error) (msg : string)
| ExitError (code : Z)                  (* *exec.ExitError *)
| ErrHostDoesNotExist (name : string)   (* mcnerror.ErrHostDoesNotExist *)
| ErrNotExist (path : string).          (* an error with os.IsNotExist *)

(** [errors.Cause]: the innermost error of a chain of wraps. *)
Fixpoint Cause (e : error) : error :=
  match e with
  | Wrap c _ => Cause c
  | _ => e
  end.

(** [os.IsNotExist]. *)
Definition IsNotExist (e : error) : bool :=
  match e with
  | ErrNotExist _ => true
  | _ => false
  end.

(** [err.Error()]: a wrap prints its message, a colon, and the cause. *)
Fixpoint Error (e : error) : string :=
  match e with
  | New msg => msg
  | Wrap c msg => msg +:+ ": " +:+ Error c
  | ExitError code => "exit status " +:+ pretty code
  | ErrHostDoesNotExist name => "Host does not exist: " +:+ name
  | ErrNotExist path => path +:+ ": no such file or directory"
  end.

End errors.

Export errors.

(** ** The state monad of effectful code *)

Module effect.

Section monad.
Context {St : Type}.

(** A computation reads the state and returns the state it leaves. *)
Definition M (A : Type) : Type := St → A * St.

Definition ret {A} (a : A) : M A := λ s, (a, s).

Definition bind {A B} (m : M A) (k : A → M B) : M B :=
  λ s, let '(a, s') := m s in k a s'.

Definition get : M St := λ s, (s, s).

Definition modify (f : St → St) : M unit := λ s, (tt, f s).

End monad.

Arguments M : clear implicits.

Section trace.
Context {Ev : Type}.

(** Where the state is just the history of calls: one call to the outside
    world.  The oracle answers from the history, and the call, with its
    answer, joins the history. *)
Definition perform {A} (oracle : list Ev → A) (record : A → Ev)
    : M (list Ev) A :=
  λ tr, let a := oracle tr in (a, tr ++ [record a]).

(** An event with no answer (a log line, the entry into a method). *)
Definition mark (e : Ev) : M (list Ev) unit := λ tr, (tt, tr ++ [e]).

(** [emits proj P m]: whatever the state, [m] only appends events to the
    history [proj] reads from the state, and each appended event
    satisfies [P]. *)
Definition emits {St A} (proj : St → list Ev) (P : Ev → Prop) (m : M St A)
    : Prop :=
  ∀ s, ∃ added, proj (m s).2 = proj s ++ added ∧ Forall P added.

End trace.

Declare Scope effect_scope.
Delimit Scope effect_scope with eff.
Notation "x <- m ;; k" := (bind m (λ x, k))
  (at level 20, m at level 99, k at level 200, only parsing)
  : effect_scope.

(** [retry.Expo] re-runs a callback, with growing pauses, until it
    succeeds or the time budget is spent.  The budget is given as the
    number of further attempts it leaves room for; the error reported is
    that of the last attempt. *)
Fixpoint Expo {St} (retries : nat) (f : M St (option error))
    : M St (option error) :=
  (err <- f ;;
   match err, retries with
   | None, _ => ret None
   | Some e, O => ret (Some e)
   | Some _, S n => Expo n f
   end)%eff.

End effect.

Import effect.
Open Scope effect_scope.

(** ** The Go standard library functions the code uses *)

Module golang.

(** [time.Second], in nanoseconds, the unit of [time.Duration]. *)
Definition Second : Z := 1000000000.

Fixpoint has_char (c : ascii) (s : string) : bool :=
  match s with
  | EmptyString => false
  | String a s' => if decide (a = c) then true else has_char c s'
  end.

(** [net.JoinHostPort]: a host with a colon or a percent sign is put in
    brackets. *)
Definition JoinHostPort (host port : string) : string :=
  if has_char ":" host || has_char "%" host
  then "[" +:+ host +:+ "]:" +:+ port
  else host +:+ ":" +:+ port.

(** [strconv.Itoa]. *)
Definition Itoa (n : Z) : string := pretty n.

(** [strings.Join]. *)
Fixpoint strings_Join (elems : list string) (sep : string) : string :=
  match elems with
  | [] => ""
  | [x] => x
  | x :: rest => x +:+ sep +:+ strings_Join rest sep
  end.

(** [strings.Replace s old new -1] for a one-character [old]. *)
Fixpoint replace_char (s : string) (old : ascii) (new : string) : string :=
  match s with
  | EmptyString => ""
  | String a s' =>
      (if decide (a = old) then new else String a "") +:+ replace_char s' old new
  end.

End golang.

(** ** pkg/minikube/config: the types the node package uses *)

Module config.

Record Node : Type := mkNode {
  Name : string;
  IP : string;
  Port : Z;
  KubernetesVersion : string;
  ControlPlane : bool;
  Worker : bool
}.

Record KubernetesConfig : Type := mkKubernetesConfig {
  kcKubernetesVersion : string;
  kcContainerRuntime : string;
  kcCRISocket : string;
  kcExtraOptions : string
}.

Record MachineConfig : Type := mkMachineConfig {
  mcName : string;
  mcVMDriver : string;
  mcKubernetesConfig : KubernetesConfig;
  Nodes : list Node
}.

(** The cluster configuration of the revision the bootstrapper is
    written against. *)
Record ClusterConfig : Type := mkClusterConfig {
  ccName : string;
  ccDriver : string;
  ccKubernetesConfig : KubernetesConfig;
  ccNodes : list Node
}.

(** The profile store on disk: one configuration per profile name. *)
Abbreviation Profiles := (gmap string MachineConfig).

(** Modelled from the spec: [config.SaveProfile] is not part of the
    sources.  Following section 4.1 ("Save(cc) -- atomic"), a save either
    fails and leaves the store as it was, or replaces the configuration
    stored under the profile name.  Whether it fails is up to the disk. *)
Definition SaveProfile (disk_fails : string → option error)
    (profileName : string) (cc : MachineConfig) (disk : Profiles)
    : option error * Profiles :=
  match disk_fails profileName with
  | Some e => (Some e, disk)
  | None => (None, <[profileName := cc]> disk)
  end.

End config.

(** ** pkg/minikube/node *)

Module node.
Import config.

(** [Start] "spins up a guest"; in this revision its body is [return nil]. *)
Definition Start (cc : MachineConfig) (n : Node) (primary : bool)
    : option error := None.

(** [Stop]: [return nil]. *)
Definition Stop (cc : MachineConfig) (n : Node) : option error := None.

(** The outcome of [Add]: the configuration behind the pointer [cc] after
    the call, the profile store, and the returned error. *)
Record AddResult : Type := mkAddResult {
  add_cc : MachineConfig;
  add_disk : Profiles;
  add_err : option error
}.

Section Add.
Variable disk_fails : string → option error.

(** [Add]: the node literal starts with [Worker: true]; the two [if]s can
    only set fields to [true]. *)
Definition Add (cc : MachineConfig) (disk : Profiles) (name : string)
    (controlPlane worker : bool) (k8sVersion profileName : string)
    : AddResult :=
  let n := mkNode name "" 0 "" false true in
  let n := if controlPlane
           then mkNode (Name n) (IP n) (Port n) (KubernetesVersion n) true (Worker n)
           else n in
  let n := if worker
           then mkNode (Name n) (IP n) (Port n) (KubernetesVersion n) (ControlPlane n) true
           else n in
  let n := if decide (k8sVersion ≠ "")
           then mkNode (Name n) (IP n) (Port n) k8sVersion (ControlPlane n) (Worker n)
           else mkNode (Name n) (IP n) (Port n)
                  (kcKubernetesVersion (mcKubernetesConfig cc))
                  (ControlPlane n) (Worker n) in
  let cc := mkMachineConfig (mcName cc) (mcVMDriver cc) (mcKubernetesConfig cc)
              (Nodes cc ++ [n]) in
  match SaveProfile disk_fails profileName cc disk with
  | (Some err, disk) => mkAddResult cc disk (Some err)
  | (None, disk) => mkAddResult cc disk (Start cc n false)
  end.

End Add.

(** [Retrieve]: the first node with the given name, and its index. *)
Fixpoint retrieve_from (i : nat) (ns : list Node) (name : string)
    : option (Node * nat) :=
  match ns with
  | [] => None
  | n :: ns' => if decide (Name n = name) then Some (n, i)
                else retrieve_from (S i) ns' name
  end.

Definition Retrieve (cc : MachineConfig) (name : string)
    : (Node * nat) + error :=
  match retrieve_from 0 (Nodes cc) name with
  | Some r => inl r
  | None => inr (New ("Could not find node " +:+ name))
  end.

(** The outcome of [Delete], like that of [Add]. *)
Record DeleteResult : Type := mkDeleteResult {
  del_cc : MachineConfig;
  del_disk : Profiles;
  del_err : option error
}.

Section Delete.
Variable disk_fails : string → option error.
(** [viper.GetString(config.MachineProfile)]. *)
Variable MachineProfile : string.

(** [Delete]: the node is looked up, stopped (the error of [Stop] is only
    logged), cut out of the slice, and the profile is saved. *)
Definition Delete (cc : MachineConfig) (disk : Profiles) (name : string)
    : DeleteResult :=
  match Retrieve cc name with
  | inr err => mkDeleteResult cc disk (Some err)
  | inl (nd, index) =>
      let _ := Stop cc nd in
      let cc := mkMachineConfig (mcName cc) (mcVMDriver cc) (mcKubernetesConfig cc)
                  (take index (Nodes cc) ++ drop (S index) (Nodes cc)) in
      match SaveProfile disk_fails MachineProfile cc disk with
      | (err, disk) => mkDeleteResult cc disk err
      end
  end.

End Delete.

(** A sample cluster of two nodes, and a disk that never fails. *)
Definition sample_config : MachineConfig :=
  mkMachineConfig "minikube" "kvm2" (mkKubernetesConfig "v1.18.0" "docker" "" "")
    [mkNode "m01" "" 0 "v1.18.0" true true; mkNode "m02" "" 0 "v1.18.0" false true].

Definition sound_disk : string → option error := λ _, None.

End node.

(** ** libmachine machine states *)

Module state.

(** Modelled from the spec: the declaration of [state.State] is not part
    of the sources; section 3 gives the enumeration. *)
Inductive State : Type :=
| None_ | Stopped | Starting | Running | Paused | Stopping | Error.

#[global] Instance State_eq_dec : EqDecision State.
Proof. solve_decision. Defined.

End state.

(** ** pkg/drivers/ssh *)

Module sshdriver.

Import golang.

Definition defaultTimeout : Z := 15 * Second.

(** The fields of the driver that [GetMachineState] reads. *)
Record Driver : Type := mkDriver {
  IPAddress : string;
  SSHPort : Z;
  SSHUser : string;
  SSHKeyPath : string;
  SSHKey : string;
  EnginePort : Z
}.

Section net.
(** [net.DialTimeout network address timeout]: [None] when the connection
    was made within the timeout, the dial error otherwise. *)
Variable DialTimeout : string → string → Z → option error.

Definition GetMachineState (d : Driver) : state.State * option error :=
  let address := JoinHostPort (IPAddress d) (Itoa (SSHPort d)) in
  match DialTimeout "tcp" address defaultTimeout with
  | Some _ => (state.Stopped, None)
  | None => (state.Running, None)
  end.

End net.

Definition DriverName (d : Driver) : string := "ssh".
Definition StartMachine (d : Driver) : option error := None.
Definition RemoveMachine (d : Driver) : option error := None.

(** *** Stopping and killing the machine *)

(** The calls the driver makes on the init system of the guest and on
    its container runtime. *)
Inductive Op : Type :=
| SysStop (svc : string)             (* sysinit.New(d.runner).Stop *)
| SysForceStop (svc : string)        (* sysinit.New(d.runner).ForceStop *)
| SysRestart (svc : string)          (* sysinit.New(d.runner).Restart *)
| ListContainers                     (* d.runtime.ListContainers *)
| StopContainers (ids : list string) (* d.runtime.StopContainers *)
| KillContainers (ids : list string). (* d.runtime.KillContainers *)

(** The error of a call and, for a listing, the containers found. *)
Record Answer : Type := mkAnswer {
  a_err : option error;
  a_ids : list string
}.

Record Event : Type := Ev { ev_op : Op; ev_answer : Answer }.

Section guest.
(** The guest: what each call answers, given the calls made so far. *)
Variable answer : list Event → Op → Answer.

Definition call (o : Op) : M (list Event) Answer :=
  perform (λ tr, answer tr o) (Ev o).

(** [StopMachine]: a kubelet that cannot be stopped is only logged. *)
Definition StopMachine : M (list Event) (option error) :=
  s <- call (SysStop "kubelet") ;;
  _ <- match a_err s with
       | Some _ => _ <- call (SysForceStop "kubelet") ;; ret tt
       | None => ret tt
       end ;;
  l <- call ListContainers ;;
  match a_err l with
  | Some err => ret (Some (Wrap err "containers"))
  | None =>
      if decide (0 < length (a_ids l))%nat then
        c <- call (StopContainers (a_ids l)) ;;
        match a_err c with
        | Some err => ret (Some (Wrap err "stop containers"))
        | None => ret None
        end
      else ret None
  end.

(** [RestartMachine]. *)
Definition RestartMachine : M (list Event) (option error) :=
  a <- call (SysRestart "kubelet") ;; ret (a_err a).

(** [KillMachine]: the containers are first stopped, and those that are
    still listed after that are killed. *)
Definition KillMachine : M (list Event) (option error) :=
  _ <- call (SysForceStop "kubelet") ;;
  l <- call ListContainers ;;
  match a_err l with
  | Some err => ret (Some (Wrap err "containers"))
  | None =>
      if decide (length (a_ids l) = 0%nat) then ret None
      else
        c <- call (StopContainers (a_ids l)) ;;
        match a_err c with
        | Some err => ret (Some (Wrap err "stop"))
        | None =>
            l2 <- call ListContainers ;;
            match a_err l2 with
            | Some err => ret (Some (Wrap err "containers"))
            | None =>
                if decide (length (a_ids l2) = 0%nat) then ret None
                else
                  k <- call (KillContainers (a_ids l2)) ;;
                  match a_err k with
                  | Some err => ret (Some (Wrap err "kill"))
                  | None => ret None
                  end
            end
        end
  end.

End guest.

(** What a run of [KillMachine] that reaches the kill looks like: the
    kubelet is force-stopped, the containers are listed and stopped
    without error, listed again, and those of the second listing, at
    least one, are killed. *)
Definition graceful_kill (added : list Event) (ids : list string) : Prop :=
  ∃ f l1 c l2 k,
    added = [ Ev (SysForceStop "kubelet") f; Ev ListContainers l1;
              Ev (StopContainers (a_ids l1)) c; Ev ListContainers l2;
              Ev (KillContainers ids) k ]
    ∧ a_ids l1 ≠ [] ∧ a_err c = None
    ∧ a_err l2 = None ∧ ids = a_ids l2 ∧ ids ≠ [].

(** A call on containers names at least one. *)
Definition names_containers (e : Event) : Prop :=
  match ev_op e with
  | StopContainers ids | KillContainers ids => ids ≠ []
  | _ => True
  end.

End sshdriver.

(** ** pkg/minikube/machine: [LocalClient.Create] *)

Module machine.

Import golang.

(** What [registry.Driver name] returns, as far as [Create] looks at it:
    [def.Empty()] and whether [def.Init] is set. *)
Record DriverDef : Type := mkDriverDef {
  Empty : bool;
  HasInit : bool
}.

Record Host : Type := mkHost {
  HostName : string;
  DriverName : string;          (* h.DriverName *)
  DriverDriverName : string     (* h.Driver.DriverName() *)
}.

(** The calls [Create] makes outside the function. *)
Inductive Op : Type :=
| LockWithTimeout (timeout : Z)   (* api.flock.LockWithTimeout *)
| Unlock                          (* api.flock.Unlock *)
| BootstrapCertificates           (* cert.BootstrapCertificates *)
| PreCreateCheck                  (* h.Driver.PreCreateCheck *)
| Save                            (* api.Save(h) *)
| CreateMachine                   (* h.Driver.CreateMachine *)
| WaitForRunning                  (* mcnutils.WaitFor(MachineInState(Running)) *)
| Provision                       (* provisionMachine(h) *)
| LegacyCreate.                   (* api.legacyClient.Create(h) *)

#[global] Instance Op_eq_dec : EqDecision Op.
Proof. solve_decision. Defined.

(** A completed call and the error it returned. *)
Record Event : Type := Ev { ev_op : Op; ev_res : option error }.

Record World : Type := mkWorld {
  registry : string → DriverDef;            (* registry.Driver *)
  BareMetal : string → bool;                (* driver.BareMetal *)
  answer : list Event → Op → option error   (* the outcome of each call *)
}.

Section Create.
Variable w : World.

Definition call (o : Op) : M (list Event) (option error) :=
  perform (λ tr, answer w tr o) (Ev o).

(** The first step: the lock is taken with a five second timeout; when it
    is held, the deferred [Unlock] runs after the certificates are
    bootstrapped, and its own error is only logged. *)
Definition bootstrapping_certificates : M (list Event) (option error) :=
  lockErr <- call (LockWithTimeout (Second * 5)) ;;
  match lockErr with
  | Some e =>
      ret (Some (New ("failed to acquire bootstrap client lock: %v " +:+ Error e)))
  | None =>
      certErr <- call BootstrapCertificates ;;
      _ <- call Unlock ;;
      ret certErr
  end.

Definition waiting (h : Host) : M (list Event) (option error) :=
  if BareMetal w (DriverDriverName h) then ret None
  else call WaitForRunning.

(** The slice of named steps. *)
Definition steps (h : Host) : list (string * M (list Event) (option error)) :=
  [ ("bootstrapping certificates", bootstrapping_certificates);
    ("precreate", call PreCreateCheck);
    ("saving", call Save);
    ("creating", call CreateMachine);
    ("waiting", waiting h);
    ("provisioning", call Provision) ].

(** [for _, step := range steps]: the first error is wrapped with the
    name of the step and returned. *)
Fixpoint run_steps (ss : list (string * M (list Event) (option error)))
    : M (list Event) (option error) :=
  match ss with
  | [] => ret None
  | (name, f) :: rest =>
      err <- f ;;
      match err with
      | Some e => ret (Some (Wrap e name))
      | None => run_steps rest
      end
  end.

Definition Create (h : Host) : M (list Event) (option error) :=
  let def := registry w (DriverName h) in
  if Empty def then
    ret (Some (New ("driver " +:+ DriverName h +:+ " does not exist")))
  else if negb (HasInit def) then
    call LegacyCreate
  else
    run_steps (steps h).

End Create.

(** The step a call belongs to, by position in [steps]. *)
Definition step_index (o : Op) : nat :=
  match o with
  | LockWithTimeout _ | Unlock | BootstrapCertificates => 0
  | PreCreateCheck => 1
  | Save => 2
  | CreateMachine => 3
  | WaitForRunning => 4
  | Provision => 5
  | LegacyCreate => 6
  end%nat.

Definition step_names : list string :=
  [ "bootstrapping certificates"; "precreate"; "saving"; "creating";
    "waiting"; "provisioning" ].

(** The calls of a run in which every step succeeds. *)
Definition full_sequence (w : World) (h : Host) : list Op :=
  [ LockWithTimeout (Second * 5); BootstrapCertificates; Unlock;
    PreCreateCheck; Save; CreateMachine ]
  ++ (if BareMetal w (DriverDriverName h) then [] else [WaitForRunning])
  ++ [ Provision ].

(** A driver that [Create] handles itself. *)
Definition in_process (d : DriverDef) : Prop :=
  Empty d = false ∧ HasInit d = true.

(** The fixed step sequence, as a property of one run of a computation
    [m] from the history [tr]: the calls made are an initial part of the
    fixed sequence; without an error the whole sequence ran and every
    step succeeded (the error of [Unlock] is only logged); with an error,
    the error is that of a failing step wrapped with the name of the
    step, the steps before it succeeded, and no call of a later step was
    made. *)
Definition fixed_step_sequence (w : World) (h : Host)
    (m : M (list Event) (option error)) (tr : list Event) : Prop :=
  ∃ added, (m tr).2 = tr ++ added ∧
    match (m tr).1 with
    | None =>
        map ev_op added = full_sequence w h
        ∧ Forall (λ e, ev_op e ≠ Unlock → ev_res e = None) added
    | Some err =>
        ∃ i name cause,
          step_names !! i = Some name
          ∧ err = Wrap cause name
          ∧ map ev_op added `prefix_of` full_sequence w h
          ∧ Forall (λ e, step_index (ev_op e) ≤ i)%nat added
          ∧ Forall (λ e, (step_index (ev_op e) < i)%nat →
                         ev_op e ≠ Unlock → ev_res e = None) added
          ∧ Exists (λ e, step_index (ev_op e) = i ∧ ev_res e ≠ None) added
    end.

(** Sample worlds: every call succeeds; the registry knows every driver
    as an in-process one, or knows none. *)
Definition calm_world : World :=
  mkWorld (λ _, mkDriverDef false true) (λ _, false) (λ _ _, None).

Definition empty_registry_world : World :=
  mkWorld (λ _, mkDriverDef true false) (λ _, false) (λ _ _, None).

Definition sample_host : Host := mkHost "minikube" "kvm2" "kvm2".

(** The lock around the certificates, as a property of the calls of one
    run: either the lock could not be taken, and nothing else was called;
    or it was taken, the certificates were bootstrapped and the lock was
    released, one right after the other, no call that follows belongs to
    that step, and nothing follows when the bootstrap failed. *)
Definition lock_discipline (added : list Event) : Prop :=
  (∃ e, added = [Ev (LockWithTimeout (Second * 5)) (Some e)])
  ∨ (∃ r u rest,
       added = Ev (LockWithTimeout (Second * 5)) None
               :: Ev BootstrapCertificates r :: Ev Unlock u :: rest
       ∧ Forall (λ e, step_index (ev_op e) ≠ 0%nat) rest
       ∧ (r ≠ None → rest = [])).

End machine.

(** ** libmachine/runner: [SSHRunner] *)

Module runner.

(** [exec.Cmd], as far as the runner reads it. *)
Record Cmd : Type := mkCmd {
  Args : list string;
  Stdin : option string;     (* nil, or a reader with this content *)
  Stdout : bool;             (* whether the caller supplied a writer *)
  Stderr : bool
}.

Record RunResult : Type := mkRunResult {
  rrArgs : list string;
  rrStdout : string;
  rrStderr : string;
  ExitCode : Z
}.

(** [assets.CopyableFile]. *)
Record CopyableFile : Type := mkCopyableFile {
  GetLength : Z;
  GetSourcePath : string;
  GetTargetDir : string;
  GetTargetName : string;
  GetPermissions : string;
  GetModTime : option string;   (* the zero time is [None] *)
  Content : string
}.

Definition Client : Type := nat.
Definition Session : Type := nat.

(** The two output pumps of a command. *)
Inductive Stream : Type := StdoutStream | StderrStream.

#[global] Instance Stream_eq_dec : EqDecision Stream.
Proof. solve_decision. Defined.

(** The calls the runner makes on the ssh library. *)
Inductive Op : Type :=
| NewSSHClient                            (* utils.NewSSHClient *)
| NewSession (c : Client)                 (* client.NewSession *)
| StdoutPipe (s : Session)
| StderrPipe (s : Session)
| StdinPipe (s : Session)
| SessRun (s : Session) (cmd : string)    (* sess.Run *)
| SessStart (s : Session) (cmd : string)  (* sess.Start *)
| SessWait (s : Session)                  (* sess.Wait *)
| SessClose (s : Session)                 (* sess.Close *)
| CombinedOutput (s : Session) (cmd : string)
| WriteFile (s : Session) (f : CopyableFile).   (* the scp writer task *)

(** What the library answers: an error or not, the handle it created,
    and the output the remote command produced. *)
Record Answer : Type := mkAnswer {
  a_err : option error;
  a_id : nat;
  a_out : string;
  a_errout : string
}.

Inductive Event : Type :=
| Ev (o : Op) (a : Answer)          (* a completed library call *)
| Spawn (s : Session) (p : Stream)  (* a pump goroutine is started *)
| Done (s : Session) (p : Stream).  (* a pump has called wg.Done *)

(** [sync.WaitGroup]: the counter, and the goroutines that hold the group
    and will call [Done] on it. *)
Record WaitGroup : Type := mkWaitGroup {
  counter : nat;
  workers : list (Session * Stream)
}.

Record StartedCmd : Type := mkStartedCmd {
  sc_cmd : Cmd;
  sc_rr : RunResult;
  sc_wg : WaitGroup
}.

(** The fields of [SSHRunner] that change. *)
Record SSHRunner : Type := mkSSHRunner {
  C : option Client;
  S : option Session
}.

Record State : Type := mkState {
  self : SSHRunner;
  trace : list Event
}.

Definition NewSSHRunner : SSHRunner := mkSSHRunner None None.

(** A call that may never return. *)
Inductive Outcome (A : Type) : Type :=
| Returned (a : A)
| Blocked.
Arguments Returned {A} a.
Arguments Blocked {A}.

Record World : Type := mkWorld {
  answer : list Event → Op → Answer;
  retries : nat;                       (* the budget of retry.Expo *)
  Join : list string → string;         (* shellquote.Join *)
  path_Join : string → string → string; (* path.Join *)
  Sha256 : string → string             (* hex digest of a content *)
}.

Definition nl : string := String (ascii_of_nat 10) "".
Definition dquote : string := String (ascii_of_nat 34) "".

Section SSHRunner.
Variable w : World.

Definition call (o : Op) : M State Answer :=
  λ st, let a := answer w (trace st) o in
        (a, mkState (self st) (trace st ++ [Ev o a])).

Definition emit (e : Event) : M State unit :=
  modify (λ st, mkState (self st) (trace st ++ [e])).

Definition set_C (c : option Client) : M State unit :=
  modify (λ st, mkState (mkSSHRunner c (S (self st))) (trace st)).

Definition set_S (x : option Session) : M State unit :=
  modify (λ st, mkState (mkSSHRunner (C (self st)) x) (trace st)).

(** [client]: the cached client, or a new one. *)
Definition client : M State (Client + error) :=
  st <- get ;;
  match C (self st) with
  | Some c => ret (inl c)
  | None =>
      a <- call NewSSHClient ;;
      match a_err a with
      | Some err => ret (inr (Wrap err "new client"))
      | None => _ <- set_C (Some (a_id a)) ;; ret (inl (a_id a))
      end
  end.

(** The closure [getSession] of [session]: a failed [NewSession] drops
    the cached client. *)
Definition getSession : M State (Session + error) :=
  c <- client ;;
  match c with
  | inr err => ret (inr (Wrap err "new client"))
  | inl c =>
      a <- call (NewSession c) ;;
      match a_err a with
      | Some err => _ <- set_C None ;; ret (inr err)
      | None => ret (inl (a_id a))
      end
  end.

(** [session]: [getSession] under [retry.Expo]. *)
Fixpoint session_retry (n : nat) : M State (Session + error) :=
  r <- getSession ;;
  match r, n with
  | inl sess, _ => ret (inl sess)
  | inr e, O => ret (inr e)
  | inr _, Datatypes.S n' => session_retry n'
  end.

Definition session : M State (Session + error) :=
  session_retry (retries w).

(** [wg.Wait]: returns once every goroutine that holds the group has
    called [Done]; with fewer goroutines than the counter it never
    returns. *)
Fixpoint join (ws : list (Session * Stream)) : M State unit :=
  match ws with
  | [] => ret tt
  | (s, p) :: ws' => _ <- emit (Done s p) ;; join ws'
  end.

Definition wg_Wait (wg : WaitGroup) : M State (Outcome unit) :=
  if decide (length (workers wg) = counter wg)
  then _ <- join (workers wg) ;; ret (Returned tt)
  else ret Blocked.

(** [teeSSH]: both pumps are joined before the error of [Run] is
    returned.  The answer carries what the pumps copied. *)
Definition teeSSH (sess : Session) (cmd : string)
    : M State (option error * string * string) :=
  o <- call (StdoutPipe sess) ;;
  match a_err o with
  | Some err => ret (Some (Wrap err "stdout"), "", "")
  | None =>
      e <- call (StderrPipe sess) ;;
      match a_err e with
      | Some err => ret (Some (Wrap err "stderr"), "", "")
      | None =>
          _ <- emit (Spawn sess StderrStream) ;;
          _ <- emit (Spawn sess StdoutStream) ;;
          r <- call (SessRun sess cmd) ;;
          _ <- join [(sess, StderrStream); (sess, StdoutStream)] ;;
          ret (a_err r, a_out r, a_errout r)
      end
  end.

(** The error text of a failed command. *)
Definition command_error (rr : RunResult) (err : error) : error :=
  New (Join w (rrArgs rr) +:+ ": " +:+ Error err +:+ nl +:+ "stdout:" +:+ nl
       +:+ rrStdout rr +:+ nl +:+ "stderr:" +:+ nl +:+ rrStderr rr).

(** The type assertion of [err] to an [exec.ExitError]: only then is the
    exit code stored. *)
Definition with_exit_code (rr : RunResult) (err : option error) : RunResult :=
  match err with
  | Some (ExitError code) => mkRunResult (rrArgs rr) (rrStdout rr) (rrStderr rr) code
  | _ => rr
  end.

(** [RunCmd].  The first component is the pointer to the run result,
    [None] for [nil]. *)
Definition RunCmd (cmd : Cmd) : M State (option RunResult * option error) :=
  match Stdin cmd with
  | Some _ =>
      ret (None, Some (New "SSHRunner does not support stdin - you could be the first to add it"))
  | None =>
      let rr := mkRunResult (Args cmd) "" "" 0 in
      sess <- session ;;
      match sess with
      | inr err => ret (Some rr, Some (Wrap err "NewSession"))
      | inl sess =>
          r <- teeSSH sess (Join w (Args cmd)) ;;
          let '(err, out, errout) := r in
          let rr := mkRunResult (rrArgs rr) out errout (ExitCode rr) in
          let rr := with_exit_code rr err in
          _ <- call (SessClose sess) ;;     (* deferred *)
          match err with
          | None => ret (Some rr, None)
          | Some e => ret (Some rr, Some (command_error rr e))
          end
      end
  end.

(** [teeSSHStart]: the pumps are started only when both pipes are
    there. *)
Definition teeSSHStart (sess : Session) (cmd : string) (wg : WaitGroup)
    : M State (option error * WaitGroup) :=
  o <- call (StdoutPipe sess) ;;
  match a_err o with
  | Some err => ret (Some (Wrap err "stdout"), wg)
  | None =>
      e <- call (StderrPipe sess) ;;
      match a_err e with
      | Some err => ret (Some (Wrap err "stderr"), wg)
      | None =>
          _ <- emit (Spawn sess StderrStream) ;;
          _ <- emit (Spawn sess StdoutStream) ;;
          r <- call (SessStart sess cmd) ;;
          ret (a_err r,
               mkWaitGroup (counter wg)
                 (workers wg ++ [(sess, StderrStream); (sess, StdoutStream)]))
      end
  end.

(** [StartCmd]. *)
Definition StartCmd (cmd : Cmd) : M State (option StartedCmd * option error) :=
  match Stdin cmd with
  | Some _ =>
      ret (None, Some (New "SSHRunner does not support stdin - you could be the first to add it"))
  | None =>
      st <- get ;;
      match S (self st) with
      | Some _ =>
          ret (None, Some (New "another SSH command has been started and is currently running"))
      | None =>
          let wg := mkWaitGroup 2 [] in
          let rr := mkRunResult (Args cmd) "" "" 0 in
          sess <- session ;;
          match sess with
          | inr err => ret (Some (mkStartedCmd cmd rr wg), Some (Wrap err "NewSession"))
          | inl sess =>
              _ <- set_S (Some sess) ;;
              r <- teeSSHStart sess (Join w (Args cmd)) wg ;;
              ret (Some (mkStartedCmd cmd rr r.2), r.1)
          end
      end
  end.

(** [WaitCmd]. *)
Definition WaitCmd (sc : StartedCmd)
    : M State (Outcome (option RunResult * option error)) :=
  st <- get ;;
  match S (self st) with
  | None => ret (Returned (None, Some (New "there is no SSH command started")))
  | Some sess =>
      a <- call (SessWait sess) ;;
      let err := a_err a in
      let rr := mkRunResult (rrArgs (sc_rr sc)) (a_out a) (a_errout a)
                  (ExitCode (sc_rr sc)) in
      let rr := with_exit_code rr err in
      j <- wg_Wait (sc_wg sc) ;;
      match j with
      | Blocked => ret Blocked
      | Returned _ =>
          _ <- call (SessClose sess) ;;
          _ <- set_S None ;;
          match err with
          | None => ret (Returned (Some rr, None))
          | Some e => ret (Returned (Some rr, Some (command_error rr e)))
          end
      end
  end.

(** [RemoveFile]: the session is closed when the function returns, and
    the error of the remote [rm] is returned as it is. *)
Definition RemoveFile (f : CopyableFile) : M State (option error) :=
  let dst := path_Join w (GetTargetDir f) (GetTargetName f) in
  sess <- session ;;
  match sess with
  | inr err => ret (Some (Wrap err "getting ssh session"))
  | inl sess =>
      r <- call (SessRun sess ("sudo rm " +:+ dst)) ;;
      _ <- call (SessClose sess) ;;     (* deferred *)
      ret (a_err r)
  end.

(** Modelled from the spec: [fileExists] is not part of the sources.
    Section 4.2: the destination is checked "via stat + sha256sum", and
    the transfer is skipped "if it matches".  The check reports a match
    only when both commands ran without error, the size printed by [stat]
    is the length of the source and the digest printed by [sha256sum] is
    that of the source. *)
Definition fileExists (f : CopyableFile) (dst : string)
    : M State (bool * option error) :=
  r <- RunCmd (mkCmd ["stat"; "-c"; "%s"; dst] None false false) ;;
  match r with
  | (_, Some err) => ret (false, Some err)
  | (None, None) => ret (false, None)
  | (Some rr, None) =>
      if decide (rrStdout rr = pretty (GetLength f) +:+ nl) then
        r2 <- RunCmd (mkCmd ["sha256sum"; dst] None false false) ;;
        match r2 with
        | (_, Some err) => ret (false, Some err)
        | (None, None) => ret (false, None)
        | (Some rr2, None) =>
            ret (bool_decide (rrStdout rr2
                              = Sha256 w (Content f) +:+ "  " +:+ dst +:+ nl),
                 None)
        end
      else ret (false, None)
  end.

Section CopyFile.
(** The package function [fileExists] that [CopyFile] calls. *)
Variable fileExists : CopyableFile → string → M State (bool * option error).

(** The scp command line; the time stamp is set when the source has
    one. *)
Definition scp_command (f : CopyableFile) (dst : string) : string :=
  let scp := "sudo test -d " +:+ GetTargetDir f +:+ " && sudo scp -t "
               +:+ GetTargetDir f in
  match GetModTime f with
  | Some mtime =>
      scp +:+ " && sudo touch -d " +:+ dquote +:+ mtime +:+ dquote +:+ " " +:+ dst
  | None => scp
  end.

(** What follows the skip test in [CopyFile]: the file is sent over a new
    session. *)
Definition transfer (f : CopyableFile) (dst : string) : M State (option error) :=
  sess <- session ;;
  match sess with
  | inr err => ret (Some (Wrap err "NewSession"))
  | inl sess =>
      p <- call (StdinPipe sess) ;;
      match a_err p with
      | Some err =>
          _ <- call (SessClose sess) ;;
          ret (Some (Wrap err "StdinPipe"))
      | None =>
          let scp := scp_command f dst in
          o <- call (CombinedOutput sess scp) ;;
          match a_err o with
          | Some err =>
              _ <- call (SessClose sess) ;;
              ret (Some (New (scp +:+ ": " +:+ Error err +:+ nl +:+ "output: "
                              +:+ a_out o)))
          | None =>
              g <- call (WriteFile sess f) ;;     (* g.Wait() *)
              _ <- call (SessClose sess) ;;
              ret (a_err g)
          end
      end
  end.

(** [CopyFile]: only files of more than 2048 bytes are looked up on the
    remote; the error of the lookup is logged and otherwise ignored. *)
Definition CopyFile (f : CopyableFile) : M State (option error) :=
  let dst := path_Join w (GetTargetDir f) (GetTargetName f) in
  if decide (GetLength f > 2048) then
    r <- fileExists f dst ;;
    if r.1 then ret None
    else transfer f dst
  else transfer f dst.

End CopyFile.

End SSHRunner.




(** An event of the transfer itself, as opposed to the lookup. *)
Definition is_transfer (e : Event) : bool :=
  match e with
  | Ev (StdinPipe _) _ | Ev (CombinedOutput _ _) _ | Ev (WriteFile _ _) _ => true
  | _ => false
  end.




(** Sample worlds and inputs: every call succeeds and creates handle 7;
    or every call fails as on a lost connection. *)
Definition calm_world : World :=
  mkWorld (λ _ _, mkAnswer None 7 "" "") 0
    (λ l, golang.strings_Join l " ") (λ a b, a +:+ "/" +:+ b) (λ s, s).


Definition fresh : State := mkState NewSSHRunner [].

Definition sample_cmd : Cmd := mkCmd ["sudo"; "systemctl"; "start"; "kubelet"] None false false.




Definition sample_file : CopyableFile :=
  mkCopyableFile 4096 "/tmp/kubeadm.yaml" "/var/tmp/minikube" "kubeadm.yaml.new"
    "0640" None "apiVersion: kubeadm.k8s.io/v1beta2".




(** *** Open sessions *)

(** Closing a session takes it off the open ones. *)
Fixpoint close_session (s : Session) (open : list Session) : list Session :=
  match open with
  | [] => []
  | x :: rest => if decide (x = s) then rest else x :: close_session s rest
  end.

(** The sessions that are open after an event: a [NewSession] that
    succeeded opens one, a [Close] closes one. *)
Definition track (open : list Session) (e : Event) : list Session :=
  match e with
  | Ev (NewSession _) a =>
      match a_err a with
      | None => a_id a :: open
      | Some _ => open
      end
  | Ev (SessClose s) _ => close_session s open
  | _ => open
  end.

Definition open_after (open : list Session) (tr : list Event) : list Session :=
  foldl track open tr.

(** An event that opens and closes nothing. *)
Definition neutral (e : Event) : Prop := ∀ open, track open e = open.

(** A computation that closes the sessions it opens. *)
Definition balanced {A} (m : M State A) : Prop :=
  ∀ st, ∃ added, trace (m st).2 = trace st ++ added
                 ∧ ∀ open, open_after open added = open.

(** One of the two output pipes of a session cannot be had, at the
    history [tr]. *)
Definition pipe_fails (w : World) (sess : Session) (tr : list Event) : Prop :=
  a_err (answer w tr (StdoutPipe sess)) ≠ None
  ∨ a_err (answer w (tr ++ [Ev (StdoutPipe sess) (answer w tr (StdoutPipe sess))])
             (StderrPipe sess)) ≠ None.

(** The started command [StartCmd] returns for [sample_cmd] in the calm
    world. *)
Definition sample_started : StartedCmd :=
  mkStartedCmd sample_cmd (mkRunResult (Args sample_cmd) "" "" 0)
    (mkWaitGroup 2 [(7%nat, StderrStream); (7%nat, StdoutStream)]).

(** A world in which the output pipe of a session cannot be had. *)
Definition broken_pipe_world : World :=
  mkWorld
    (λ _ o, match o with
            | StdoutPipe _ => mkAnswer (Some (New "EOF")) 0 "" ""
            | _ => mkAnswer None 7 "" ""
            end)
    0 (λ l, golang.strings_Join l " ") (λ a b, a +:+ "/" +:+ b) (λ s, s).

End runner.

(** ** cmd/minikube/cmd: [runDelete] *)

Module cmd.

(** The calls [runDelete] makes outside the function. *)
Inductive Op : Type :=
| NewAPIClient                          (* machine.NewAPIClient *)
| Load                                  (* pkg_config.Load *)
| GetClusterBootstrapper (bs : string)  (* getClusterBootstrapper *)
| DeleteCluster                         (* clusterBootstrapper.DeleteCluster *)
| DeleteHost                            (* cluster.DeleteHost *)
| KillMountProcess                      (* cmdUtil.KillMountProcess *)
| RemoveAll (path : string)             (* os.RemoveAll *)
| DeleteKubeConfigContext (path machineName : string).

(** The error of a call and, for [Load], the driver of the loaded
    configuration. *)
Record Answer : Type := mkAnswer {
  a_err : option error;
  a_driver : string
}.

Inductive Event : Type :=
| Ev (o : Op) (a : Answer)
| Out (msg : string)          (* console.OutStyle *)
| ErrLn (msg : string)        (* console.ErrLn *)
| Fatal (msg : string).       (* console.Fatal: a styled line on stderr *)

(** How the command ends: the function returns (the process then exits
    with status 0), it calls [os.Exit], or it leaves through [exit.Usage]
    or [exit.WithError], which end the process with a failure status. *)
Inductive Exit : Type :=
| Return
| OsExit (code : Z)
| ExitUsage (msg : string)
| ExitWithError (msg : string) (err : error).

Definition succeeded (x : Exit) : bool :=
  match x with
  | Return => true
  | OsExit code => bool_decide (code = 0)
  | _ => false
  end.

Record World : Type := mkWorld {
  answer : list Event → Op → Answer;
  profile : string;                    (* viper MachineProfile *)
  bootstrapper : string;               (* viper Bootstrapper *)
  GetProfilePath : string → string;    (* constants.GetProfilePath *)
  KubeconfigPath : string;             (* constants.KubeconfigPath *)
  GetMachineName : string              (* pkg_config.GetMachineName *)
}.

Definition DriverNone : string := "none".

Section runDelete.
Variable w : World.

Definition call (o : Op) : M (list Event) Answer :=
  perform (λ tr, answer w tr o) (Ev o).

Definition skip : M (list Event) unit := ret tt.

(** [uninstallKubernetes]: both failures are only printed. *)
Definition uninstallKubernetes (bsName : string) : M (list Event) unit :=
  _ <- mark (Out ("Uninstalling Kubernetes using " +:+ bsName +:+ " ...")) ;;
  b <- call (GetClusterBootstrapper bsName) ;;
  match a_err b with
  | Some err => mark (ErrLn ("Unable to get bootstrapper: " +:+ Error err))
  | None =>
      d <- call DeleteCluster ;;
      match a_err d with
      | Some err => mark (ErrLn ("Failed to delete cluster: " +:+ Error err))
      | None => skip
      end
  end.

(** What follows the deletion of the host. *)
Definition remove_profile : M (list Event) Exit :=
  k <- call KillMountProcess ;;
  _ <- match a_err k with
       | Some err => mark (Fatal ("Failed to kill mount process: " +:+ Error err))
       | None => skip
       end ;;
  r <- call (RemoveAll (GetProfilePath w (profile w))) ;;
  match a_err r with
  | Some err =>
      if IsNotExist err then
        _ <- mark (Out (profile w +:+ " profile does not exist")) ;;
        ret (OsExit 0)
      else ret (ExitWithError "Failed to remove profile" err)
  | None =>
      _ <- mark (Out ("The " +:+ profile w +:+ " cluster has been deleted.")) ;;
      c <- call (DeleteKubeConfigContext (KubeconfigPath w) (GetMachineName w)) ;;
      match a_err c with
      | Some err => ret (ExitWithError "update config" err)
      | None => ret Return
      end
  end.

(** [runDelete]. *)
Definition runDelete (args : list string) : M (list Event) Exit :=
  if decide (0 < length args)%nat then ret (ExitUsage "usage: minikube delete")
  else
    api <- call NewAPIClient ;;
    match a_err api with
    | Some err => ret (ExitWithError "Error getting client" err)
    | None =>
        cc <- call Load ;;
        _ <- match a_err cc with
             | Some err =>
                 if negb (IsNotExist err)
                 then mark (ErrLn ("Error loading profile config: " +:+ Error err))
                 else skip
             | None => skip
             end ;;
        _ <- match a_err cc with
             | None =>
                 if decide (a_driver cc = DriverNone)
                 then uninstallKubernetes (bootstrapper w)
                 else skip
             | Some _ => skip
             end ;;
        d <- call DeleteHost ;;
        match a_err d with
        | Some err =>
            match Cause err with
            | ErrHostDoesNotExist _ =>
                _ <- mark (Out (profile w +:+ " cluster does not exist")) ;;
                remove_profile
            | cause => ret (ExitWithError "Failed to delete cluster" cause)
            end
        | None => remove_profile
        end
    end.

End runDelete.

(** An event after which [runDelete] still ends with status 0. *)
Definition tolerated (e : Event) : bool :=
  match e with
  | Ev NewAPIClient a => bool_decide (a_err a = None)
  | Ev DeleteHost a =>
      match a_err a with
      | None => true
      | Some err => match Cause err with ErrHostDoesNotExist _ => true | _ => false end
      end
  | Ev (RemoveAll _) a =>
      match a_err a with
      | None => true
      | Some err => IsNotExist err
      end
  | Ev (DeleteKubeConfigContext _ _) a => bool_decide (a_err a = None)
  | _ => true
  end.

(** A computation that ends with status 0 exactly when every event it
    added is a tolerated one. *)
Definition judged (m : M (list Event) Exit) : Prop :=
  ∀ tr, ∃ added, (m tr).2 = tr ++ added
                 ∧ (succeeded (m tr).1 = true ↔ Forall tolerated added).

(** Two deletes in a row, the second starting from the history the first
    one left, both end with status 0. *)
Definition delete_twice_succeeds (w : World) (tr : list Event) : Prop :=
  succeeded (runDelete w [] tr).1 = true
  ∧ succeeded (runDelete w [] (runDelete w [] tr).2).1 = true.

(** Sample worlds.  In the tidy one the host exists until [DeleteHost]
    has removed it, and nothing else fails.  In the other one there is no
    host and no profile ([os.RemoveAll] returns nil for a path that does
    not exist), and the kubeconfig file cannot be written. *)
Definition host_deleted (e : Event) : bool :=
  match e with
  | Ev DeleteHost a => bool_decide (a_err a = None)
  | _ => false
  end.

Definition tidy_world : World :=
  mkWorld
    (λ tr o,
       match o with
       | DeleteHost =>
           if existsb host_deleted tr
           then mkAnswer (Some (Wrap (ErrHostDoesNotExist "minikube") "load")) ""
           else mkAnswer None ""
       | _ => mkAnswer None "virtualbox"
       end)
    "minikube" "kubeadm" (λ p, "/home/user/.minikube/profiles/" +:+ p)
    "/home/user/.kube/config" "minikube".

Definition readonly_kubeconfig_world : World :=
  mkWorld
    (λ tr o,
       match o with
       | Load => mkAnswer (Some (ErrNotExist "config.json")) ""
       | DeleteHost => mkAnswer (Some (ErrHostDoesNotExist "never")) ""
       | DeleteKubeConfigContext _ _ => mkAnswer (Some (New "permission denied")) ""
       | _ => mkAnswer None ""
       end)
    "never" "kubeadm" (λ p, "/home/user/.minikube/profiles/" +:+ p)
    "/home/user/.kube/config" "never".

(** *** The order of the calls of [runDelete] *)

(** [only_after trigger guard seen l]: in [l], every event that satisfies
    [trigger] comes after an event that satisfies [guard]; [seen] tells
    whether such an event came before [l]. *)
Fixpoint only_after (trigger guard : Event → bool) (seen : bool)
    (l : list Event) : bool :=
  match l with
  | [] => true
  | e :: l' =>
      (if trigger e then seen else true)
      && only_after trigger guard (seen || guard e) l'
  end.

(** The kubeconfig is written. *)
Definition touches_kubeconfig (e : Event) : bool :=
  match e with
  | Ev (DeleteKubeConfigContext _ _) _ => true
  | _ => false
  end.

(** The profile directory is asked to be removed; it was removed. *)
Definition removes_profile (e : Event) : bool :=
  match e with
  | Ev (RemoveAll _) _ => true
  | _ => false
  end.

Definition removed_profile (e : Event) : bool :=
  match e with
  | Ev (RemoveAll _) a => bool_decide (a_err a = None)
  | _ => false
  end.

(** The host is gone: [DeleteHost] deleted it, or found none. *)
Definition host_gone (e : Event) : bool :=
  match e with
  | Ev DeleteHost a =>
      match a_err a with
      | None => true
      | Some err => match Cause err with ErrHostDoesNotExist _ => true | _ => false end
      end
  | _ => false
  end.

(** A call of [uninstallKubernetes]; a configuration was loaded whose
    driver is "none". *)
Definition uninstalls (e : Event) : bool :=
  match e with
  | Ev (GetClusterBootstrapper _) _ | Ev DeleteCluster _ => true
  | _ => false
  end.

Definition loaded_none (e : Event) : bool :=
  match e with
  | Ev Load a => bool_decide (a_err a = None) && bool_decide (a_driver a = DriverNone)
  | _ => false
  end.

(** The bootstrapper is asked to delete the cluster; a bootstrapper was
    obtained. *)
Definition deletes_cluster (e : Event) : bool :=
  match e with
  | Ev DeleteCluster _ => true
  | _ => false
  end.

Definition got_bootstrapper (e : Event) : bool :=
  match e with
  | Ev (GetClusterBootstrapper _) a => bool_decide (a_err a = None)
  | _ => false
  end.

(** A computation whose events keep to [only_after]. *)
Definition staged {A} (trigger guard : Event → bool) (seen : bool)
    (m : M (list Event) A) : Prop :=
  ∀ tr, ∃ added, (m tr).2 = tr ++ added
                 ∧ only_after trigger guard seen added = true.

End cmd.

(** ** pkg/minikube/bootstrapper/kubeadm *)

Module kubeadm.
Import golang config.

(** A parsed version: major, minor, patch. *)
Definition semver : Type := (nat * nat * nat)%type.

(** [v.LT(o)]. *)
Definition LT (v o : semver) : bool :=
  let '(a, b, c) := v in
  let '(x, y, z) := o in
  if decide (a < x)%nat then true
  else if decide (x < a)%nat then false
  else if decide (b < y)%nat then true
  else if decide (y < b)%nat then false
  else bool_decide (c < z)%nat.

(** [v.GTE(o)]. *)
Definition GTE (v o : semver) : bool := negb (LT v o).

(** [cruntime.ListOptions.State]. *)
Inductive ContainerState : Type := All | RunningContainers | PausedContainers.

(** The methods of the bootstrapper whose calls and returns are kept in
    the history. *)
Inductive Method : Type :=
| Munpause | MrestartCluster | MDeleteCluster | Minit.

#[global] Instance Method_eq_dec : EqDecision Method.
Proof. solve_decision. Defined.

(** The calls the bootstrapper makes on the runner, the container
    runtime, the verifier and the Kubernetes client. *)
Inductive Op : Type :=
| RunCmd (argv : list string)                   (* k.c.RunCmd *)
| CruntimeNew (type socket : string)            (* cruntime.New *)
| ListContainers (st : ContainerState) (namespaces : list string)
| UnpauseContainers (ids : list string)
| StopContainers (ids : list string)
| ExistingConfig                                (* bsutil.ExistingConfig *)
| ForceStop (svc : string)                      (* sysinit ForceStop *)
| ControlPaneEndpoint                           (* driver.ControlPaneEndpoint *)
| ClientConfig (context : string)               (* kapi.ClientConfig *)
| NewForConfig (endpoint : string)              (* kubernetes.NewForConfig *)
| APIServerStatus (hostname : string) (port : Z)
| ExpectAppsRunning                             (* with kverify.AppsRunningList *)
| APIServerVersionMatch (version : string)
| NodePressure
| WaitForAPIServerProcess
| WaitForHealthyAPIServer (hostname : string) (port : Z)
| WaitForSystemPods
| AdjustResourceLimits
| PostInitTasks.    (* the three goroutines of init, up to wg.Wait() *)

Record Answer : Type := mkAnswer {
  a_err : option error;
  a_state : state.State;     (* APIServerStatus *)
  a_ids : list string;       (* ListContainers *)
  a_host : string;           (* ControlPaneEndpoint; ClientConfig: cc.Host *)
  a_port : Z;                (* ControlPaneEndpoint *)
  a_name : string;           (* cruntime.New: r.Name() *)
  a_client : nat             (* NewForConfig *)
}.

Inductive Event : Type :=
| Ev (o : Op) (a : Answer)                   (* a completed call *)
| Enter (m : Method)                         (* a method is entered *)
| Leave (m : Method) (r : option error)      (* a method returns *)
| Log (msg : string).                        (* a line of glog or out *)

(** The bootstrapper: the cached client and the history. *)
Record State : Type := mkState {
  k8sClient : option nat;
  trace : list Event
}.

Record World : Type := mkWorld {
  answer : list Event → Op → Answer;
  retries : nat;                                (* budget of retry.Expo *)
  contextName : string;                         (* k.contextName *)
  ParseKubernetesVersion : string → semver + error;
  PrimaryControlPlane : ClusterConfig → Node + error;
  InvokeKubeadm : string → string;              (* bsutil.InvokeKubeadm *)
  CreateFlagsFromExtraArgs : string → string;
  SkipAdditionalPreflights : string → list string;
  IsKIC : string → bool;                        (* driver.IsKIC *)
  KubeadmYamlPath : string;                     (* bsutil.KubeadmYamlPath *)
  EtcdDataDir : string;                         (* bsutil.EtcdDataDir() *)
  GuestManifestsDir : string;                   (* vmpath *)
  GuestPersistentDir : string
}.

(** Messages that tell which branch was taken. *)
Definition msg_no_reset : string := "The running cluster does not need a reset.".
Definition msg_shortcut : string :=
  "Taking a shortcut, as the cluster seems to be properly configured".
Definition msg_will_reset : string := "Unable to restart cluster, will reset it".
Definition msg_try_again : string := "initialization failed, will try again".

Definition legacyEtcd : string := "/data/minikube".

Section Bootstrapper.
Variable w : World.

Definition call (o : Op) : M State Answer :=
  λ st, let a := answer w (trace st) o in
        (a, mkState (k8sClient st) (trace st ++ [Ev o a])).

Definition emit (e : Event) : M State unit :=
  modify (λ st, mkState (k8sClient st) (trace st ++ [e])).

Definition log (msg : string) : M State unit := emit (Log msg).

(** A method body between its [Enter] and [Leave] events. *)
Definition invoke (m : Method) (body : M State (option error))
    : M State (option error) :=
  _ <- emit (Enter m) ;;
  r <- body ;;
  _ <- emit (Leave m r) ;;
  ret r.

Definition run (argv : list string) : M State (option error) :=
  a <- call (RunCmd argv) ;; ret (a_err a).

(** [rr.Command()]. *)
Definition Command (argv : list string) : string := strings_Join argv " ".

(** [createCompatSymlinks]. *)
Definition createCompatSymlinks : M State (option error) :=
  t <- run ["sudo"; "test"; "-d"; legacyEtcd] ;;
  match t with
  | Some _ => ret None
  | None =>
      let c := ["sudo"; "ln"; "-s"; legacyEtcd; EtcdDataDir w] in
      l <- run c ;;
      match l with
      | Some err => ret (Some (Wrap err ("create symlink failed: " +:+ Command c)))
      | None => ret None
      end
  end.

Definition stale_paths : list string :=
  [ "/etc/kubernetes/admin.conf";
    "/etc/kubernetes/kubelet.conf";
    "/etc/kubernetes/controller-manager.conf";
    "/etc/kubernetes/scheduler.conf" ].

Definition stale_cmd (endpoint path : string) : list string :=
  [ "sudo"; "/bin/bash"; "-c";
    "grep " +:+ endpoint +:+ " " +:+ path +:+ " || sudo rm -f " +:+ path ].

(** A loop that runs commands one at a time and stops at the first
    error. *)
Fixpoint run_each (cmds : list (list string)) : M State (option error) :=
  match cmds with
  | [] => ret None
  | c :: rest =>
      err <- run c ;;
      match err with
      | Some e => ret (Some e)
      | None => run_each rest
      end
  end.

(** [clearStaleConfigs]. *)
Definition clearStaleConfigs (cfg : ClusterConfig) : M State (option error) :=
  match PrimaryControlPlane w cfg with
  | inr err => ret (Some err)
  | inl cp =>
      let endpoint := "https://" +:+ JoinHostPort (IP cp) (Itoa (Port cp)) in
      run_each (map (stale_cmd endpoint) stale_paths)
  end.

Definition cp_cmd : list string :=
  [ "sudo"; "cp"; KubeadmYamlPath w +:+ ".new"; KubeadmYamlPath w ].

(** The preflight checks [init] tells kubeadm to ignore. *)
Definition ignore_list (cfg : ClusterConfig) (version : semver)
    (runtimeName : string) : list string :=
  let ignore :=
    [ "DirAvailable-" +:+ replace_char (GuestManifestsDir w) "/" "-";
      "DirAvailable-" +:+ replace_char (GuestPersistentDir w) "/" "-";
      "DirAvailable-" +:+ replace_char (EtcdDataDir w) "/" "-";
      "FileAvailable--etc-kubernetes-manifests-kube-scheduler.yaml";
      "FileAvailable--etc-kubernetes-manifests-kube-apiserver.yaml";
      "FileAvailable--etc-kubernetes-manifests-kube-controller-manager.yaml";
      "FileAvailable--etc-kubernetes-manifests-etcd.yaml";
      "Port-10250";
      "Swap";
      "SystemVerification" ] in
  let ignore := ignore ++ SkipAdditionalPreflights w runtimeName in
  let ignore := if LT version (1, 13, 0)%nat || IsKIC w (ccDriver cfg)
                then ignore ++ ["SystemVerification"] else ignore in
  if IsKIC w (ccDriver cfg)
  then ignore ++ ["FileContent--proc-sys-net-bridge-bridge-nf-call-iptables"]
  else ignore.

Definition init_cmd (cfg : ClusterConfig) (ignore : list string) : list string :=
  let k8s := ccKubernetesConfig cfg in
  [ "/bin/bash"; "-c";
    InvokeKubeadm w (kcKubernetesVersion k8s) +:+ " init --config "
      +:+ KubeadmYamlPath w +:+ " "
      +:+ CreateFlagsFromExtraArgs w (kcExtraOptions k8s)
      +:+ " --ignore-preflight-errors=" +:+ strings_Join ignore "," ].

(** [init].  After the kubeadm command the three goroutines run and are
    joined; what they do is logged and does not change the result. *)
Definition init (cfg : ClusterConfig) : M State (option error) :=
  invoke Minit (
    let k8s := ccKubernetesConfig cfg in
    match ParseKubernetesVersion w (kcKubernetesVersion k8s) with
    | inr err => ret (Some (Wrap err "parsing kubernetes version"))
    | inl version =>
        r <- call (CruntimeNew (kcContainerRuntime k8s) "") ;;
        match a_err r with
        | Some err => ret (Some err)
        | None =>
            let ignore := ignore_list cfg version (a_name r) in
            c <- clearStaleConfigs cfg ;;
            match c with
            | Some err => ret (Some (Wrap err "clearing stale configs"))
            | None =>
                k <- run (init_cmd cfg ignore) ;;
                match k with
                | Some err => ret (Some (Wrap err "run"))
                | None =>
                    _ <- call PostInitTasks ;;
                    ret None
                end
            end
        end
    end).

(** [unpause]. *)
Definition unpause (cfg : ClusterConfig) : M State (option error) :=
  invoke Munpause (
    cr <- call (CruntimeNew (kcContainerRuntime (ccKubernetesConfig cfg)) "") ;;
    match a_err cr with
    | Some err => ret (Some err)
    | None =>
        l <- call (ListContainers PausedContainers ["kube-system"]) ;;
        match a_err l with
        | Some err => ret (Some (Wrap err "list paused"))
        | None =>
            if decide (0 < length (a_ids l))%nat then
              u <- call (UnpauseContainers (a_ids l)) ;;
              ret (a_err u)
            else ret None
        end
    end).

(** [DeleteCluster]: the error returned is that of the reset command. *)
Definition DeleteCluster (k8s : KubernetesConfig) : M State (option error) :=
  invoke MDeleteCluster (
    match ParseKubernetesVersion w (kcKubernetesVersion k8s) with
    | inr err => ret (Some (Wrap err "parsing kubernetes version"))
    | inl version =>
        let cmd := if LT version (1, 11, 0)%nat
                   then InvokeKubeadm w (kcKubernetesVersion k8s) +:+ " reset"
                   else InvokeKubeadm w (kcKubernetesVersion k8s) +:+ " reset --force" in
        derr <- run ["/bin/bash"; "-c"; cmd] ;;
        _ <- call (ForceStop "kubelet") ;;
        cr <- call (CruntimeNew (kcContainerRuntime k8s) (kcCRISocket k8s)) ;;
        match a_err cr with
        | Some err => ret (Some (Wrap err "runtime"))
        | None =>
            l <- call (ListContainers All ["kube-system"]) ;;
            _ <- (if decide (0 < length (a_ids l))%nat
                  then s <- call (StopContainers (a_ids l)) ;; ret tt
                  else ret tt) ;;
            ret derr
        end
    end).

(** [client]: the cached client, or a new one, cached when it could be
    made. *)
Definition client (ip : string) (port : Z) : M State (nat + error) :=
  st <- get ;;
  match k8sClient st with
  | Some c => ret (inl c)
  | None =>
      cc <- call (ClientConfig (contextName w)) ;;
      match a_err cc with
      | Some err => ret (inr (Wrap err "client config"))
      | None =>
          let endpoint := "https://" +:+ JoinHostPort ip (Itoa port) in
          c <- call (NewForConfig endpoint) ;;
          match a_err c with
          | Some err => ret (inr err)
          | None =>
              _ <- modify (λ st, mkState (Some (a_client c)) (trace st)) ;;
              ret (inl (a_client c))
          end
      end
  end.

Definition diff_cmd (conf : string) : list string :=
  [ "sudo"; "diff"; "-u"; conf; conf +:+ ".new" ].

(** [needsReset]: five checks in a row; the first that fails answers
    [true]. *)
Definition needsReset (conf name hostname driver : string) (port : Z)
    (client : nat) (version : string) : M State bool :=
  d <- call (RunCmd (diff_cmd conf)) ;;
  match a_err d with
  | Some _ => _ <- log "needs reset: configs differ" ;; ret true
  | None =>
      s <- call (APIServerStatus hostname port) ;;
      match a_err s with
      | Some _ => _ <- log "needs reset: apiserver error" ;; ret true
      | None =>
          if decide (a_state s ≠ state.Running) then
            _ <- log "needs reset: apiserver in state" ;; ret true
          else
            a <- call ExpectAppsRunning ;;
            match a_err a with
            | Some _ => _ <- log "needs reset: expect apps running" ;; ret true
            | None =>
                v <- call (APIServerVersionMatch version) ;;
                match a_err v with
                | Some _ =>
                    _ <- log "needs reset: apiserver version match" ;; ret true
                | None =>
                    p <- call NodePressure ;;
                    match a_err p with
                    | Some _ =>
                        _ <- log "needs reset: node pressure" ;; ret true
                    | None => _ <- log msg_no_reset ;; ret false
                    end
                end
            end
      end
  end.

(** The four phases [restartCluster] runs one at a time. *)
Definition phase_cmds (cc : ClusterConfig) (version : semver)
    : list (list string) :=
  let conf := KubeadmYamlPath w in
  let phase := if GTE version (1, 13, 0)%nat then "init" else "alpha" in
  let controlPlane :=
    if GTE version (1, 13, 0)%nat then "control-plane" else "controlplane" in
  let baseCmd :=
    InvokeKubeadm w (kcKubernetesVersion (ccKubernetesConfig cc)) +:+ " " +:+ phase in
  map (λ c, ["/bin/bash"; "-c"; c])
    [ baseCmd +:+ " phase certs all --config " +:+ conf;
      baseCmd +:+ " phase kubeconfig all --config " +:+ conf;
      baseCmd +:+ " phase " +:+ controlPlane +:+ " all --config " +:+ conf;
      baseCmd +:+ " phase etcd local --config " +:+ conf ].

Definition addon_cmd (cc : ClusterConfig) (version : semver) : list string :=
  let phase := if GTE version (1, 13, 0)%nat then "init" else "alpha" in
  let baseCmd :=
    InvokeKubeadm w (kcKubernetesVersion (ccKubernetesConfig cc)) +:+ " " +:+ phase in
  [ "/bin/bash"; "-c";
    baseCmd +:+ " phase addon all --config " +:+ KubeadmYamlPath w ].

(** What [restartCluster] does once [needsReset] has answered [true]. *)
Definition reconfigure (cc : ClusterConfig) (version : semver)
    (hostname : string) (port : Z) : M State (option error) :=
  s <- clearStaleConfigs cc ;;
  match s with
  | Some err => ret (Some (Wrap err "clearing stale configs"))
  | None =>
  c <- run cp_cmd ;;
  match c with
  | Some err => ret (Some (Wrap err "cp"))
  | None =>
  p <- run_each (phase_cmds cc version) ;;
  match p with
  | Some err => ret (Some (Wrap err "run"))
  | None =>
  cr <- call (CruntimeNew (kcContainerRuntime (ccKubernetesConfig cc)) "") ;;
  match a_err cr with
  | Some err => ret (Some (Wrap err "runtime"))
  | None =>
  a <- call WaitForAPIServerProcess ;;
  match a_err a with
  | Some err => ret (Some (Wrap err "apiserver healthz"))
  | None =>
  h <- call (WaitForHealthyAPIServer hostname port) ;;
  match a_err h with
  | Some err => ret (Some (Wrap err "apiserver health"))
  | None =>
  sp <- call WaitForSystemPods ;;
  match a_err sp with
  | Some err => ret (Some (Wrap err "system pods"))
  | None =>
  ad <- Expo (retries w) (run (addon_cmd cc version)) ;;
  match ad with
  | Some err => ret (Some (Wrap err "addons"))
  | None =>
  _ <- call AdjustResourceLimits ;;
  ret None
  end end end end end end end end.

(** [restartCluster]. *)
Definition restartCluster (cc : ClusterConfig) : M State (option error) :=
  invoke MrestartCluster (
    let k8s := ccKubernetesConfig cc in
    match ParseKubernetesVersion w (kcKubernetesVersion k8s) with
    | inr err => ret (Some (Wrap err "parsing kubernetes version"))
    | inl version =>
        _ <- createCompatSymlinks ;;
        match PrimaryControlPlane w cc with
        | inr err => ret (Some (Wrap err "primary control plane"))
        | inl cp =>
            e <- call ControlPaneEndpoint ;;
            match a_err e with
            | Some err => ret (Some (Wrap err "control plane"))
            | None =>
                let hostname := a_host e in
                let port := a_port e in
                c <- client hostname port ;;
                match c with
                | inr err => ret (Some (Wrap err "getting k8s client"))
                | inl c =>
                    reset <- needsReset (KubeadmYamlPath w) (ccName cc) hostname
                               (ccDriver cc) port c (kcKubernetesVersion k8s) ;;
                    if negb reset then
                      _ <- log msg_shortcut ;; ret None
                    else reconfigure cc version hostname port
                end
            end
        end
    end).

(** [StartCluster]. *)
Definition StartCluster (cfg : ClusterConfig) : M State (option error) :=
  _ <- unpause cfg ;;
  e <- call ExistingConfig ;;
  restarted <-
    match a_err e with
    | None =>
        rerr <- restartCluster cfg ;;
        match rerr with
        | None => ret true
        | Some _ =>
            _ <- log msg_will_reset ;;
            _ <- DeleteCluster (ccKubernetesConfig cfg) ;;
            ret false     (* fall through to init *)
        end
    | Some _ => ret false
    end ;;
  if restarted : bool then ret None
  else
    c <- run cp_cmd ;;
    match c with
    | Some err => ret (Some (Wrap err "cp"))
    | None =>
        err <- init cfg ;;
        match err with
        | None => ret None
        | Some _ =>
            _ <- log msg_try_again ;;
            _ <- DeleteCluster (ccKubernetesConfig cfg) ;;
            init cfg
        end
    end.

End Bootstrapper.

(** *** Reading a history *)

(** A call or a log line, as opposed to the entry into a method or the
    return from one. *)
Definition plain (e : Event) : Prop :=
  match e with
  | Ev _ _ | Log _ => True
  | Enter _ | Leave _ _ => False
  end.

(** A completed call. *)
Definition is_call (e : Event) : Prop :=
  match e with
  | Ev _ _ => True
  | _ => False
  end.

(** The entries and returns of the three methods [StartCluster] chooses
    between. *)
Definition top_level (e : Event) : bool :=
  match e with
  | Enter m | Leave m _ => bool_decide (m ≠ Munpause)
  | _ => false
  end.

Definition calls (tr : list Event) : list Event := filter top_level tr.

(** The commands run on the guest, in order. *)
Definition command_of (e : Event) : option (list string) :=
  match e with
  | Ev (RunCmd argv) _ => Some argv
  | _ => None
  end.

Definition commands (tr : list Event) : list (list string) :=
  omap command_of tr.

(** What one method call adds to the history. *)
Definition invoked (m : Method) (r : option error) (added : list Event) : Prop :=
  ∃ body, added = Enter m :: body ++ [Leave m r] ∧ Forall plain body.


(** *** The checks of [needsReset], as properties of the world *)

Section checks.
Variables (w : World) (conf hostname version : string) (port : Z).







End checks.

(** *** The hot path of [restartCluster] *)

Definition test_cmd : list string := ["sudo"; "test"; "-d"; legacyEtcd].

Definition ln_cmd (w : World) : list string :=
  ["sudo"; "ln"; "-s"; legacyEtcd; EtcdDataDir w].

(** A command that only reads the guest. *)
Definition read_only (w : World) (c : list string) : Prop :=
  c = test_cmd ∨ c = diff_cmd (KubeadmYamlPath w).

(** A command of the reconfiguration: clearing a stale config, copying
    the new kubeadm config over the old one, a kubeadm phase. *)
Definition reconfigures (w : World) (cc : ClusterConfig) (c : list string)
    : Prop :=
  (∃ endpoint path, c = stale_cmd endpoint path)
  ∨ c = cp_cmd w
  ∨ (∃ version, c ∈ phase_cmds w cc version)
  ∨ (∃ version, c = addon_cmd w cc version).

(** What the hot path may run: a read-only command or the compat link,
    and none of the commands of the reconfiguration. *)
Definition allowed_on_hot_path (w : World) (cc : ClusterConfig)
    (c : list string) : Prop :=
  (read_only w c ∨ c = ln_cmd w) ∧ ¬ reconfigures w cc c.

(** An event of the hot path: any event that is not a command, or an
    allowed command. *)
Definition hot_event (w : World) (cc : ClusterConfig) (e : Event) : Prop :=
  match e with
  | Ev (RunCmd argv) _ => allowed_on_hot_path w cc argv
  | _ => True
  end.


(** A computation that, whenever it logs that no reset is needed,
    returns nil after hot events only. *)
Definition settles (w : World) (cc : ClusterConfig)
    (m : M State (option error)) : Prop :=
  ∀ st, ∃ added, trace (m st).2 = trace st ++ added
    ∧ (Log msg_no_reset ∈ added →
       (m st).1 = None ∧ Forall (hot_event w cc) added).


(** *** The shape of a run of [StartCluster] *)

(** From the copy of the new config on: the copy fails; or init
    succeeds; or init fails, the cluster is deleted, and init runs a
    second and last time. *)
Definition init_shape (cs : list Event) (r : option error) : Prop :=
  (cs = [] ∧ ∃ e, r = Some (Wrap e "cp"))
  ∨ (cs = [Enter Minit; Leave Minit None] ∧ r = None)
  ∨ (∃ e d, cs = [Enter Minit; Leave Minit (Some e);
                  Enter MDeleteCluster; Leave MDeleteCluster d;
                  Enter Minit; Leave Minit r]).

(** With an existing configuration: the restart succeeds; or it fails,
    the cluster is deleted, and the run goes on as without one. *)
Definition start_shape (existing : bool) (cs : list Event) (r : option error)
    : Prop :=
  if existing then
    (cs = [Enter MrestartCluster; Leave MrestartCluster None] ∧ r = None)
    ∨ (∃ e d rest,
         cs = [Enter MrestartCluster; Leave MrestartCluster (Some e);
               Enter MDeleteCluster; Leave MDeleteCluster d] ++ rest
         ∧ init_shape rest r)
  else init_shape cs r.






(** *** Sample worlds and inputs *)

Definition ok : Answer := mkAnswer None state.Running [] "192.168.39.2" 8443 "Docker" 1.


Definition sample_node : Node := mkNode "m01" "192.168.39.2" 8443 "v1.18.0" true true.

Definition sample_cluster : ClusterConfig :=
  mkClusterConfig "minikube" "kvm2"
    (mkKubernetesConfig "v1.18.0" "docker" "" "") [sample_node].

Definition world_with (answer : list Event → Op → Answer) : World :=
  mkWorld answer 2 "minikube"
    (λ _, inl (1, 18, 0)%nat) (λ _, inl sample_node)
    (λ v, "sudo env PATH=/var/lib/minikube/binaries/" +:+ v +:+ ":$PATH kubeadm")
    (λ x, x) (λ _, []) (λ d, bool_decide (d = "docker"))
    "/var/tmp/minikube/kubeadm.yaml" "/var/lib/minikube/etcd"
    "/etc/kubernetes/manifests" "/var/lib/minikube".

(** A healthy cluster that still has the legacy etcd directory. *)
Definition healthy_world : World := world_with (λ _ _, ok).


Definition fresh : State := mkState None [].

(** *** The package function [copyFiles] *)

Module files.

(** The calls on the [command.Runner] handed to [copyFiles]. *)
Inductive Op : Type :=
| RunCmd (argv : list string)          (* runner.RunCmd *)
| Copy (f : runner.CopyableFile).      (* runner.Copy *)

(** A completed call and the error it returned. *)
Record Event : Type := Ev { ev_op : Op; ev_err : option error }.

Section copyFiles.
(** The runner: what each call returns, given the calls made so far. *)
Variable answer : list Event → Op → option error.

Definition call (o : Op) : M (list Event) (option error) :=
  perform (λ tr, answer tr o) (Ev o).



End copyFiles.


End files.

(** *** Loops, scripts and guarded calls *)

(** The events of a loop over [cmds] that got the answers [answers]. *)
Definition ran (cmds : list (list string)) (answers : list Answer) : list Event :=
  zip_with (λ c a, Ev (RunCmd c) a) cmds answers.

(** The answers of a loop that stops at the first error: every answer but
    the last is a success; the result is nil when the loop ran to its
    end, and the error of the last answer otherwise. *)
Definition stops_at_first_error (cmds : list (list string))
    (answers : list Answer) (r : option error) : Prop :=
  (length answers ≤ length cmds)%nat
  ∧ match r with
    | None => length answers = length cmds
              ∧ Forall (λ a, a_err a = None) answers
    | Some e => ∃ before a, answers = before ++ [a] ∧ a_err a = Some e
                            ∧ Forall (λ a, a_err a = None) before
    end.

(** The four commands of [clearStaleConfigs] for a control plane. *)
Definition stale_cmds (cp : Node) : list (list string) :=
  map (stale_cmd ("https://" +:+ JoinHostPort (IP cp) (Itoa (Port cp))))
    stale_paths.

(** The commands of a reconfiguration in which the addon phase was tried
    [n] times. *)
Definition reconfigure_script (w : World) (cc : ClusterConfig)
    (version : semver) (cp : Node) (n : nat) : list (list string) :=
  stale_cmds cp ++ [cp_cmd w] ++ phase_cmds w cc version
  ++ replicate n (addon_cmd w cc version).

(** A computation whose commands follow a script, one of a family of
    scripts indexed by a number between 1 and [bound]: the commands it
    runs are an initial part of the script, and the whole of it when the
    computation returns nil. *)
Definition follows (script : nat → list (list string)) (bound : nat)
    (m : M State (option error)) : Prop :=
  ∀ st, ∃ n added,
    (1 ≤ n ≤ bound)%nat
    ∧ trace (m st).2 = trace st ++ added
    ∧ commands added `prefix_of` script n
    ∧ ((m st).1 = None → commands added = script n).




(** The two ways a step reports that it went well. *)
Definition returned_nil (r : option error) : bool := bool_decide (r = None).
Definition answered (a : Answer) : bool := bool_decide (a_err a = None).

(** A call on containers names at least one container. *)
Definition names_containers (e : Event) : Prop :=
  match e with
  | Ev (UnpauseContainers ids) _ | Ev (StopContainers ids) _ => ids ≠ []
  | _ => True
  end.

(** The last method [StartCluster] entered returned nil, and it was
    [restartCluster] or [init]. *)
Definition ended_well (cs : list Event) : Prop :=
  last cs = Some (Leave MrestartCluster None)
  ∨ last cs = Some (Leave Minit None).

End kubeadm.

(* ===================================================================== *)
(** * Part II: lemmas and theorems                                        *)
(* ===================================================================== *)

(** ** The state monad *)

Section effect_lemmas.
Context {St Ev : Type} (proj : St → list Ev).

Lemma emits_ret {A} (P : Ev → Prop) (a : A) : emits proj P (ret a).
Proof. intros s. exists []. simpl. by rewrite app_nil_r. Qed.

Lemma emits_bind {A B} (P : Ev → Prop) (m : M St A) (k : A → M St B) :
  emits proj P m → (∀ a, emits proj P (k a)) → emits proj P (bind m k).
Proof.
  intros Hm Hk s. unfold bind.
  destruct (Hm s) as (a1 & E1 & F1).
  destruct (m s) as [a s1] eqn:Em. simpl in E1.
  destruct (Hk a s1) as (a2 & E2 & F2).
  exists (a1 ++ a2). split.
  - rewrite E2, E1. by rewrite app_assoc.
  - by apply Forall_app.
Qed.

Lemma emits_weaken {A} (P Q : Ev → Prop) (m : M St A) :
  (∀ e, P e → Q e) → emits proj P m → emits proj Q m.
Proof.
  intros HPQ Hm s. destruct (Hm s) as (a & E & F).
  exists a. split; [done|]. eapply Forall_impl; eauto.
Qed.

Lemma emits_get (P : Ev → Prop) : emits proj P (get : M St St).
Proof. intros s. exists []. simpl. by rewrite app_nil_r. Qed.

End effect_lemmas.

(** ** pkg/minikube/node *)

Section node_theorems.
Import config node.

(** C9.  Whatever the [worker] argument, the node that [Add] appends to
    the configuration has [Worker] set; the [controlPlane] argument is
    what [ControlPlane] is set to.  Adding with [worker = false] gives the
    same configuration, the same stored profile and the same error as
    adding with [worker = true]. *)
Theorem Add_worker_always_true
    (disk_fails : string → option error) (cc : MachineConfig)
    (disk : Profiles) (name : string) (controlPlane worker : bool)
    (k8sVersion profileName : string) :
  let r := Add disk_fails cc disk name controlPlane worker k8sVersion profileName in
  (∃ n, Nodes (add_cc r) = Nodes cc ++ [n]
        ∧ Name n = name ∧ Worker n = true ∧ ControlPlane n = controlPlane)
  ∧ r = Add disk_fails cc disk name controlPlane true k8sVersion profileName
  ∧ r = Add disk_fails cc disk name controlPlane false k8sVersion profileName
  ∧ add_disk r = match disk_fails profileName with
                 | Some _ => disk
                 | None => <[profileName := add_cc r]> disk
                 end.
Proof.
  unfold Add, SaveProfile.
  destruct controlPlane, worker, (decide (k8sVersion ≠ "")),
    (disk_fails profileName); simpl;
    (split; [eexists; repeat split; reflexivity | done]).
Qed.

End node_theorems.

(** ** pkg/drivers/ssh *)

Section sshdriver_theorems.
Import golang sshdriver.

(** C10.  [GetMachineState] of the ssh driver never returns an error.  Its
    state is [Running] when the TCP dial to the SSH address, with the 15
    second timeout, succeeds, and [Stopped] for every dial error; no other
    state is returned. *)
Theorem GetMachineState_running_or_stopped
    (DialTimeout : string → string → Z → option error) (d : Driver) :
  let address := JoinHostPort (IPAddress d) (Itoa (SSHPort d)) in
  let dial := DialTimeout "tcp" address (15 * 1000000000) in
  let r := GetMachineState DialTimeout d in
  r.2 = None
  ∧ (r.1 = state.Running ∨ r.1 = state.Stopped)
  ∧ (r.1 = state.Running ↔ dial = None)
  ∧ (r.1 = state.Stopped ↔ dial ≠ None)
  ∧ r.1 ∉ [state.Error; state.Paused; state.Starting; state.None_; state.Stopping].
Proof.
  unfold GetMachineState, defaultTimeout, Second. simpl.
  destruct (DialTimeout _ _ _) as [e|]; simpl.
  - split_and!; [reflexivity | by right | | | ].
    + split; intros H; discriminate H.
    + split; intros _; [discriminate | reflexivity].
    + rewrite !elem_of_cons, elem_of_nil. intros [H|[H|[H|[H|[H|[]]]]]]; discriminate H.
  - split_and!; [reflexivity | by left | | | ].
    + split; intros _; reflexivity.
    + split; [intros H; discriminate H | intros H; by destruct H].
    + rewrite !elem_of_cons, elem_of_nil. intros [H|[H|[H|[H|[H|[]]]]]]; discriminate H.
Qed.

End sshdriver_theorems.
(** ** pkg/minikube/machine *)

Section machine_theorems.
Import golang machine.

(** Symbolic execution against an arbitrary world: case analysis on each
    answer the code branches on. *)
Ltac machine_cases :=
  repeat match goal with
  | |- context [match answer ?w ?t ?o with _ => _ end] =>
      destruct (answer w t o) eqn:?; simpl
  | |- context [if BareMetal ?w ?n then _ else _] =>
      destruct (BareMetal w n) eqn:?; simpl
  end.

Ltac all_events tac :=
  repeat (apply List.Forall_cons; [simpl; tac|]); try apply List.Forall_nil.

Ltac some_event :=
  repeat first
    [ apply Exists_cons_hd; simpl; split; [reflexivity | discriminate]
    | apply Exists_cons_tl ].

Ltac failed_at i :=
  exists i; eexists _, _; split_and!;
  [ reflexivity
  | reflexivity
  | eexists; simpl; reflexivity
  | all_events lia
  | all_events ltac:(intros; first [reflexivity | lia | congruence])
  | some_event ].

(** The loop over the step list keeps to the fixed sequence. *)
Lemma run_steps_sequence (w : World) (h : Host) (tr : list Event) :
  fixed_step_sequence w h (run_steps (steps w h)) tr.
Proof.
  unfold fixed_step_sequence, full_sequence. simpl.
  unfold bootstrapping_certificates, waiting, call, perform, bind, ret. simpl.
  machine_cases; rewrite <- ?app_assoc; simpl;
    (eexists; split; [reflexivity|]); simpl.
  all: try (split; [reflexivity | all_events ltac:(intros; first [reflexivity | congruence])]).
  all: first [ failed_at 0%nat | failed_at 1%nat | failed_at 2%nat
             | failed_at 3%nat | failed_at 4%nat | failed_at 5%nat ].
Qed.

(** A driver the registry does not know: [Create] fails before the first
    step, and the error carries no step name. *)
Lemma Create_unregistered (w : World) (h : Host) (tr : list Event) :
  Empty (registry w (DriverName h)) = true →
  Create w h tr
  = (Some (New ("driver " +:+ DriverName h +:+ " does not exist")), tr).
Proof. intros HE. unfold Create. by rewrite HE. Qed.

(** A driver without an in-process initializer: the whole creation is
    handed to the legacy client, whose error is returned as it is. *)
Lemma Create_legacy (w : World) (h : Host) (tr : list Event) :
  Empty (registry w (DriverName h)) = false →
  HasInit (registry w (DriverName h)) = false →
  Create w h tr
  = (answer w tr LegacyCreate, tr ++ [Ev LegacyCreate (answer w tr LegacyCreate)]).
Proof. intros HE HI. unfold Create. by rewrite HE, HI. Qed.

(** C7 (amended).  For a host whose driver is registered with an
    in-process initializer, [Create] runs exactly the fixed step
    sequence: certificate bootstrap under the file lock taken with a five
    second timeout, precreate check, saving the host, creating the
    machine, waiting for the Running state (not for bare-metal drivers),
    provisioning.  The first failing step ends the run with its error
    wrapped with the name of the step, and no later step is run. *)
Theorem Create_fixed_step_sequence (w : World) (h : Host) (tr : list Event) :
  in_process (registry w (DriverName h)) →
  fixed_step_sequence w h (Create w h) tr.
Proof.
  intros [HE HI].
  pose proof (run_steps_sequence w h tr) as H.
  unfold fixed_step_sequence, Create in *. by rewrite HE, HI.
Qed.

(** The theorem at a host of an in-process driver, in a world where every
    call succeeds. *)
Lemma Create_fixed_step_sequence_witness :
  in_process (registry calm_world (DriverName sample_host))
  ∧ fixed_step_sequence calm_world sample_host
      (Create calm_world sample_host) [].
Proof.
  split; [split; reflexivity|].
  apply (Create_fixed_step_sequence calm_world sample_host []).
  split; reflexivity.
Defined.

(** C7 as stated, without the condition on the registry, fails: for a
    driver name the registry does not know, [Create] returns an error
    that no step name wraps. *)
Lemma Create_unregistered_driver_counterexample :
  ¬ fixed_step_sequence empty_registry_world sample_host
      (Create empty_registry_world sample_host) [].
Proof.
  intros (added & _ & H). simpl in H.
  destruct H as (i & name & cause & _ & H & _). discriminate H.
Qed.

End machine_theorems.
(** ** libmachine/runner *)

Section runner_theorems.
Import golang runner.
Variable w : World.

(** *** Frame lemmas: what a computation leaves alone *)



















(** *** [RunCmd]: exit code and error *)

Ltac runner_cases :=
  repeat match goal with
  | |- context [match a_err (answer ?w ?t ?o) with _ => _ end] =>
      destruct (a_err (answer w t o)) eqn:?; simpl
  | H : context [match a_err (answer ?w ?t ?o) with _ => _ end] |- _ =>
      destruct (a_err (answer w t o)) eqn:?; simpl in H
  end.


(** *** [StartCmd] and [WaitCmd] *)






(** *** At most one started command *)















(** *** [CopyFile] *)






(** A reported match means that [sha256sum] printed the digest of the
    source for the destination. *)
Lemma fileExists_match_digest (f : CopyableFile) (dst : string) (st : State) :
  (fileExists w f dst st).1.1 = true →
  ∃ st1 rr st2,
    RunCmd w (mkCmd ["sha256sum"; dst] None false false) st1 = ((Some rr, None), st2)
    ∧ rrStdout rr = Sha256 w (Content f) +:+ "  " +:+ dst +:+ nl.
Proof.
  unfold fileExists, bind.
  destruct (RunCmd w _ st) as [[[rr|] [err|]] st1]; simpl; try done.
  destruct (decide _); simpl; [|done].
  destruct (RunCmd w _ st1) as [[[rr2|] [err2|]] st2] eqn:E; simpl; try done.
  intros Hm. apply bool_decide_eq_true in Hm. by exists st1, rr2, st2.
Qed.

(** What the code of [CopyFile] does with any lookup function: the file
    is skipped when the lookup answers [true], whatever its error. *)
Lemma CopyFile_code
    (lookup : CopyableFile → string → M State (bool * option error))
    (f : CopyableFile) (st : State) :
  let dst := path_Join w (GetTargetDir f) (GetTargetName f) in
  CopyFile w lookup f st
  = if decide (GetLength f > 2048)%Z
    then (if (lookup f dst st).1.1 then (None, (lookup f dst st).2)
          else transfer w f dst (lookup f dst st).2)
    else transfer w f dst st.
Proof.
  simpl. unfold CopyFile. destruct (decide _); [|done].
  unfold bind. destruct (lookup _ _ st) as [[found err] st1]. simpl.
  by destruct found.
Qed.


End runner_theorems.



(** ** cmd/minikube/cmd *)

Section cmd_theorems.
Import golang cmd.

Lemma judged_bind {A} (m : M (list Event) A) (k : A → M (list Event) Exit) :
  emits id (λ e, tolerated e) m → (∀ a, judged (k a)) → judged (bind m k).
Proof.
  intros Hm Hk tr. unfold bind. destruct (Hm tr) as (a1 & E1 & F1).
  destruct (m tr) as [a tr1]. simpl in E1. unfold id in E1.
  destruct (Hk a tr1) as (a2 & E2 & H2).
  exists (a1 ++ a2). split; [rewrite E2, E1; by rewrite app_assoc|].
  rewrite Forall_app, H2. tauto.
Qed.

Lemma judged_success (x : Exit) : succeeded x = true → judged (ret x).
Proof.
  intros Hx tr. exists []. simpl. split; [by rewrite app_nil_r|].
  split; [by constructor | done].
Qed.

Lemma mark_tolerated (e : Event) :
  tolerated e → emits id (λ e, tolerated e) (mark e).
Proof. intros He tr. exists [e]. split; [done|]. by constructor. Qed.

Lemma call_tolerated (w : World) (o : Op) :
  (∀ a, tolerated (Ev o a)) → emits id (λ e, tolerated e) (call w o).
Proof.
  intros Ho tr. exists [Ev o (answer w tr o)]. split; [done|]. by constructor.
Qed.

Ltac tstep :=
  first
    [ apply emits_ret
    | apply mark_tolerated; exact I
    | apply call_tolerated; intros ?; exact I
    | apply emits_bind; [|intros ?]
    | match goal with
      | |- emits _ _ (match ?x with _ => _ end) => destruct x
      | |- emits _ _ (if ?x then _ else _) => destruct x
      end ].

Lemma uninstallKubernetes_tolerated (w : World) (bs : string) :
  emits id (λ e, tolerated e) (uninstallKubernetes w bs).
Proof. unfold uninstallKubernetes, skip. repeat tstep. Qed.

(** A call that decides: the events after it are judged, and the call
    itself is tolerated exactly in the branches that go on. *)
Lemma judged_call (w : World) (o : Op) (k : Answer → M (list Event) Exit) :
  (∀ tr, let a := answer w tr o in
         if tolerated (Ev o a) then judged (k a)
         else ∀ tr', succeeded (k a tr').1 = false
                     ∧ (k a tr').2 = tr') →
  judged (bind (call w o) k).
Proof.
  intros H tr. unfold bind, call, perform. specialize (H tr). cbv zeta in H.
  destruct (tolerated (Ev o (answer w tr o))) eqn:Ht.
  - destruct (H (tr ++ [Ev o (answer w tr o)])) as (a2 & E2 & H2).
    exists (Ev o (answer w tr o) :: a2). split.
    + rewrite E2. by rewrite <- app_assoc.
    + rewrite H2, Forall_cons, Ht. simpl. tauto.
  - destruct (H (tr ++ [Ev o (answer w tr o)])) as [Hs Htr].
    exists [Ev o (answer w tr o)]. split; [exact Htr|].
    rewrite Hs, Forall_cons, Ht. simpl. split; [done | tauto].
Qed.

Lemma remove_profile_judged (w : World) : judged (remove_profile w).
Proof.
  unfold remove_profile.
  apply judged_bind; [apply call_tolerated; intros ?; exact I|]. intros k.
  apply judged_bind; [unfold skip; repeat tstep|]. intros _.
  apply judged_call. intros tr. simpl.
  destruct (a_err (answer w tr (RemoveAll _))) as [err|]; simpl.
  - destruct (IsNotExist err); simpl.
    + apply judged_bind; [repeat tstep|]. intros _. by apply judged_success.
    + by intros tr'.
  - apply judged_bind; [repeat tstep|]. intros _.
    apply judged_call. intros tr1. simpl.
    destruct (a_err (answer w tr1 _)) as [err|]; simpl.
    + by intros tr'.
    + by apply judged_success.
Qed.

(** One run of [runDelete] without arguments ends with status 0 exactly
    when every answer it received is a tolerated one. *)
Lemma runDelete_judged (w : World) : judged (runDelete w []).
Proof.
  unfold runDelete. simpl.
  apply judged_call. intros tr. simpl.
  destruct (a_err (answer w tr NewAPIClient)) as [err|]; simpl.
  { by intros tr'. }
  apply judged_bind; [apply call_tolerated; intros ?; exact I|]. intros cc.
  apply judged_bind; [unfold skip; repeat tstep|]. intros _.
  apply judged_bind.
  { destruct (a_err cc); [unfold skip; repeat tstep|].
    destruct (decide _); [apply uninstallKubernetes_tolerated|unfold skip; repeat tstep]. }
  intros _.
  apply judged_call. intros tr1. simpl.
  destruct (a_err (answer w tr1 DeleteHost)) as [err|]; simpl;
    [|apply remove_profile_judged].
  destruct (Cause err); simpl; try (by intros tr').
  apply judged_bind; [repeat tstep|]. intros _. apply remove_profile_judged.
Qed.

Lemma runDelete_succeeds_iff (w : World) (tr : list Event) :
  ∃ added, (runDelete w [] tr).2 = tr ++ added
           ∧ (succeeded (runDelete w [] tr).1 = true ↔ Forall tolerated added).
Proof. apply runDelete_judged. Qed.

(** C8 (amended).  [delete] run twice in a row ends with status 0 both
    times exactly when, in both runs, the API client could be made,
    [DeleteHost] returned nil or an error caused by the host not
    existing, [os.RemoveAll] of the profile directory returned nil or a
    not-exist error, and the kubeconfig context, when its removal was
    reached, was removed without error.  A host that does not exist and
    a profile directory that is absent are therefore tolerated; any other
    failure of these calls ends the command with a failure status. *)
Theorem runDelete_twice_succeeds_iff (w : World) (tr : list Event) :
  ∃ added, (runDelete w [] (runDelete w [] tr).2).2 = tr ++ added
           ∧ (delete_twice_succeeds w tr ↔ Forall tolerated added).
Proof.
  destruct (runDelete_succeeds_iff w tr) as (a1 & E1 & H1).
  destruct (runDelete_succeeds_iff w (runDelete w [] tr).2) as (a2 & E2 & H2).
  exists (a1 ++ a2). split.
  - rewrite E2, E1. by rewrite app_assoc.
  - unfold delete_twice_succeeds. rewrite Forall_app, H1, H2. done.
Qed.

End cmd_theorems.

(** C8 where nothing fails: the first delete removes the host, the second
    finds none, and both end with status 0. *)
Lemma runDelete_twice_succeeds_witness :
  cmd.delete_twice_succeeds cmd.tidy_world [].
Proof.
  destruct (runDelete_twice_succeeds_iff cmd.tidy_world []) as (added & E & H).
  apply H. vm_compute in E. subst added.
  repeat (apply List.Forall_cons; [vm_compute; exact I|]). apply List.Forall_nil.
Defined.

(** C8 as stated fails: with no host and no profile directory, a
    kubeconfig file that cannot be written ends [delete] through
    [exit.WithError]. *)
Lemma runDelete_missing_profile_counterexample :
  ¬ cmd.delete_twice_succeeds cmd.readonly_kubeconfig_world [].
Proof. intros [H _]. vm_compute in H. discriminate H. Qed.
(** ** pkg/minikube/bootstrapper/kubeadm *)

Section kubeadm_theorems.
Import golang config kubeadm.
Variable w : World.

(** *** What the building blocks add to the history *)

Lemma call_emits (P : Event → Prop) (o : Op) :
  (∀ a, P (Ev o a)) → emits trace P (call w o).
Proof.
  intros HP st. exists [Ev o (answer w (trace st) o)]. split; [done|].
  by apply Forall_singleton.
Qed.

Lemma emit_emits (P : Event → Prop) (e : Event) :
  P e → emits trace P (emit e).
Proof. intros HP st. exists [e]. split; [done|]. by apply Forall_singleton. Qed.

Lemma cache_emits (P : Event → Prop) (c : option nat) :
  emits trace P (modify (λ st, mkState c (trace st))).
Proof. intros st. exists []. simpl. by rewrite app_nil_r. Qed.

Ltac kstep :=
  first
    [ apply emits_ret | apply emits_get | apply cache_emits
    | apply emit_emits; [exact I]
    | apply call_emits; [intros ?; exact I]
    | apply emits_bind; [|intros ?]
    | match goal with
      | |- emits _ _ (match ?x with _ => _ end) => destruct x
      | |- emits _ _ (if ?x then _ else _) => destruct x
      | |- emits _ _ (let _ := _ in _) => cbv zeta
      end
    | assumption ].

Ltac kframe := repeat kstep.

Lemma run_calls (argv : list string) : emits trace is_call (run w argv).
Proof. unfold run. kframe. Qed.

Lemma run_each_calls (cmds : list (list string)) :
  emits trace is_call (run_each w cmds).
Proof.
  induction cmds as [|c cmds IH]; simpl; [kframe|].
  apply emits_bind; [apply run_calls|]. intros [e|]; kframe.
Qed.

Lemma Expo_calls (n : nat) (f : M State (option error)) :
  emits trace is_call f → emits trace is_call (Expo n f).
Proof.
  intros Hf. induction n as [|n IH]; simpl;
    (apply emits_bind; [exact Hf|]); intros [e|]; kframe.
Qed.

Lemma clearStaleConfigs_calls (cfg : ClusterConfig) :
  emits trace is_call (clearStaleConfigs w cfg).
Proof.
  unfold clearStaleConfigs. destruct (PrimaryControlPlane w cfg); [|kframe].
  apply run_each_calls.
Qed.

Lemma createCompatSymlinks_calls : emits trace is_call (createCompatSymlinks w).
Proof.
  unfold createCompatSymlinks.
  repeat first [ apply run_calls | kstep ].
Qed.

Lemma client_calls (ip : string) (port : Z) :
  emits trace is_call (client w ip port).
Proof. unfold client. kframe. Qed.

Lemma reconfigure_calls (cc : ClusterConfig) (version : semver)
    (hostname : string) (port : Z) :
  emits trace is_call (reconfigure w cc version hostname port).
Proof.
  unfold reconfigure.
  repeat first
    [ apply clearStaleConfigs_calls | apply run_calls | apply run_each_calls
    | apply Expo_calls | kstep ].
Qed.

Lemma is_call_plain (e : Event) : is_call e → plain e.
Proof. by destruct e. Qed.

Lemma calls_are_plain {A} (m : M State A) :
  emits trace is_call m → emits trace plain m.
Proof. apply emits_weaken, is_call_plain. Qed.

Lemma needsReset_plain (conf name hostname driver : string) (port : Z)
    (c : nat) (version : string) :
  emits trace plain (needsReset w conf name hostname driver port c version).
Proof. unfold needsReset, log. kframe. Qed.

(** Every method records its entry, then plain events, then its
    return. *)
Lemma invoke_spec (m : Method) (body : M State (option error)) (st : State) :
  emits trace plain body →
  ∃ added, trace (invoke m body st).2 = trace st ++ added
           ∧ invoked m (invoke m body st).1 added.
Proof.
  intros Hb. unfold invoke, emit, modify, bind, ret. simpl.
  destruct (Hb (mkState (k8sClient st) (trace st ++ [Enter m])))
    as (inner & E & F).
  destruct (body _) as [r st1]. simpl in *.
  exists (Enter m :: inner ++ [Leave m r]). split.
  - rewrite E. by rewrite <- !app_assoc.
  - by exists inner.
Qed.

Lemma unpause_spec (cfg : ClusterConfig) (st : State) :
  ∃ added, trace (unpause w cfg st).2 = trace st ++ added
           ∧ invoked Munpause (unpause w cfg st).1 added.
Proof. apply invoke_spec. kframe. Qed.

Lemma init_spec (cfg : ClusterConfig) (st : State) :
  ∃ added, trace (init w cfg st).2 = trace st ++ added
           ∧ invoked Minit (init w cfg st).1 added.
Proof.
  apply invoke_spec.
  repeat first
    [ apply calls_are_plain, clearStaleConfigs_calls
    | apply calls_are_plain, run_calls | kstep ].
Qed.

Lemma DeleteCluster_spec (k8s : KubernetesConfig) (st : State) :
  ∃ added, trace (DeleteCluster w k8s st).2 = trace st ++ added
           ∧ invoked MDeleteCluster (DeleteCluster w k8s st).1 added.
Proof.
  apply invoke_spec.
  repeat first [ apply calls_are_plain, run_calls | kstep ].
Qed.

Lemma restartCluster_spec (cc : ClusterConfig) (st : State) :
  ∃ added, trace (restartCluster w cc st).2 = trace st ++ added
           ∧ invoked MrestartCluster (restartCluster w cc st).1 added.
Proof.
  apply invoke_spec. unfold log.
  repeat first
    [ apply calls_are_plain, createCompatSymlinks_calls
    | apply calls_are_plain, client_calls
    | apply calls_are_plain, reconfigure_calls
    | apply needsReset_plain
    | kstep ].
Qed.

(** *** [needsReset] *)


End kubeadm_theorems.
Section hot_path_theorems.
Import golang config kubeadm.
Variable w : World.

(** *** [restartCluster] when no reset is needed *)


Lemma call_not_log (added : list Event) (msg : string) :
  Forall is_call added → Log msg ∉ added.
Proof.
  intros HF Hin. rewrite Forall_forall in HF. by apply HF in Hin.
Qed.







(** Completed calls that are hot are silent. *)
Lemma settles_calls (cc : ClusterConfig) (m : M State (option error)) :
  emits trace is_call m → settles w cc m.
Proof.
  intros Hm st. destruct (Hm st) as (added & E & F). exists added.
  split; [exact E|]. intros Hin. by apply call_not_log in Hin.
Qed.











End hot_path_theorems.
Section StartCluster_theorems.
Import golang config kubeadm.
Variable w : World.

(** *** [StartCluster] *)

Lemma calls_app (t1 t2 : list Event) : calls (t1 ++ t2) = calls t1 ++ calls t2.
Proof. unfold calls. by rewrite filter_app. Qed.

Lemma calls_plain (body : list Event) : Forall plain body → calls body = [].
Proof.
  unfold calls. induction 1 as [|e l He _ IH]; [done|].
  rewrite filter_cons. destruct e; simpl in *; done.
Qed.

Lemma calls_call (o : Op) (a : Answer) : calls [Ev o a] = [].
Proof. done. Qed.

Lemma calls_log (msg : string) (l : list Event) : calls (Log msg :: l) = calls l.
Proof. done. Qed.

Lemma calls_invoked (m : Method) (r : option error) (added : list Event) :
  invoked m r added →
  calls added = if decide (m = Munpause) then [] else [Enter m; Leave m r].
Proof.
  intros (body & -> & Hb).
  change (Enter m :: body ++ [Leave m r]) with ([Enter m] ++ body ++ [Leave m r]).
  rewrite !calls_app, (calls_plain body Hb). unfold calls.
  rewrite !filter_cons, !filter_nil. simpl.
  destruct (decide (m = Munpause)) as [->|Hm]; simpl; [done|].
  by rewrite !bool_decide_eq_true_2.
Qed.

(** From the copy of the new config on. *)
Lemma init_part_shape (cfg : ClusterConfig) (st : State) :
  let m :=
    bind (run w (cp_cmd w)) (λ c,
      match c with
      | Some err => ret (Some (Wrap err "cp"))
      | None =>
          bind (init w cfg) (λ err,
            match err with
            | None => ret None
            | Some _ =>
                bind (log msg_try_again) (λ _,
                  bind (DeleteCluster w (ccKubernetesConfig cfg)) (λ _,
                    init w cfg))
            end)
      end) in
  ∃ added, trace (m st).2 = trace st ++ added
           ∧ init_shape (calls added) (m st).1.
Proof.
  cbv zeta.
  match goal with |- ∃ added, trace (?m st).2 = _ ∧ _ =>
    destruct (m st) as [r st'] eqn:E end.
  simpl. unfold bind at 1, run at 1, bind at 1, call, ret at 1 in E. simpl in E.
  destruct (a_err (answer w (trace st) (RunCmd (cp_cmd w)))) as [e|].
  { injection E as <- <-. simpl. eexists [_]. split; [done|].
    left. split; [done | by eexists]. }
  unfold bind at 1 in E.
  match type of E with context [init w cfg ?s] => set (st1 := s) in E end.
  destruct (init_spec w cfg st1) as (a1 & E1 & I1).
  destruct (init w cfg st1) as [r1 st2]. simpl in E1, I1.
  apply calls_invoked in I1. simpl in I1.
  destruct r1 as [e1|].
  2:{ injection E as <- <-.
      exists (Ev (RunCmd (cp_cmd w)) (answer w (trace st) (RunCmd (cp_cmd w))) :: a1).
      split; [rewrite E1; simpl; by rewrite <- app_assoc|].
      right; left. split; [|done].
      change (?x :: a1) with ([x] ++ a1). by rewrite calls_app, I1. }
  unfold bind at 1, log, emit, modify in E. simpl in E.
  unfold bind at 1 in E.
  match type of E with context [DeleteCluster w ?k ?s] => set (st3 := s) in E end.
  destruct (DeleteCluster_spec w (ccKubernetesConfig cfg) st3) as (a2 & E2 & I2).
  destruct (DeleteCluster w _ st3) as [d st4]. simpl in E2, I2.
  apply calls_invoked in I2. simpl in I2.
  destruct (init_spec w cfg st4) as (a3 & E3 & I3).
  rewrite E in E3, I3. simpl in E3, I3.
  apply calls_invoked in I3. simpl in I3.
  exists ([Ev (RunCmd (cp_cmd w)) (answer w (trace st) (RunCmd (cp_cmd w)))]
          ++ a1 ++ [Log msg_try_again] ++ a2 ++ a3).
  split.
  - rewrite E3, E2. subst st3. simpl. rewrite E1. subst st1. simpl.
    by rewrite <- !app_assoc.
  - right; right. exists e1, d.
    by rewrite !calls_app, ?calls_log, ?calls_app, I1, I2, I3, calls_call.
Qed.

Lemma StartCluster_shape (cfg : ClusterConfig) (st : State) :
  ∃ added a,
    trace (StartCluster w cfg st).2 = trace st ++ added
    ∧ Ev ExistingConfig a ∈ added
    ∧ start_shape (bool_decide (a_err a = None)) (calls added)
        (StartCluster w cfg st).1.
Proof.
  destruct (StartCluster w cfg st) as [r st'] eqn:E. simpl.
  unfold StartCluster in E. unfold bind at 1 in E.
  destruct (unpause_spec w cfg st) as (a0 & E0 & I0).
  destruct (unpause w cfg st) as [u st0]. simpl in E0, I0.
  apply calls_invoked in I0. simpl in I0.
  unfold bind at 1, call in E. simpl in E.
  set (a := answer w (trace st0) ExistingConfig) in *.
  set (st1 := mkState (k8sClient st0) (trace st0 ++ [Ev ExistingConfig a])) in *.
  assert (trace st1 = trace st ++ a0 ++ [Ev ExistingConfig a]) as E1.
  { subst st1. simpl. rewrite E0. by rewrite <- app_assoc. }
  assert (calls (a0 ++ [Ev ExistingConfig a]) = []) as C1.
  { by rewrite calls_app, I0. }
  clearbody st1. unfold bind at 1 in E.
  destruct (a_err a) as [e|] eqn:Ha.
  - (* no configuration on the guest *)
    unfold ret at 1 in E. simpl in E.
    pose proof (init_part_shape cfg st1) as H. cbv zeta in H. rewrite E in H.
    destruct H as (a2 & E2 & S2). simpl in E2, S2.
    exists ((a0 ++ [Ev ExistingConfig a]) ++ a2), a. split_and!.
    + rewrite E2, E1. by rewrite <- !app_assoc.
    + rewrite !elem_of_app, list_elem_of_singleton. by left; right.
    + rewrite Ha. simpl. by rewrite calls_app, C1.
  - (* an existing configuration: restart first *)
    unfold bind at 1 in E.
    destruct (restartCluster_spec w cfg st1) as (a2 & E2 & I2).
    destruct (restartCluster w cfg st1) as [rerr st2]. simpl in E2, I2.
    apply calls_invoked in I2. simpl in I2.
    destruct rerr as [rerr|].
    + unfold bind at 1, log at 1, emit, modify in E.
      unfold bind at 1 in E.
      match type of E with context [DeleteCluster w ?k ?s] => set (st3 := s) in E end.
      destruct (DeleteCluster_spec w (ccKubernetesConfig cfg) st3) as (a3 & E3 & I3).
      destruct (DeleteCluster w _ st3) as [d st4]. simpl in E3, I3.
      apply calls_invoked in I3. simpl in I3.
      unfold ret at 1 in E. simpl in E.
      pose proof (init_part_shape cfg st4) as H. cbv zeta in H. rewrite E in H.
      destruct H as (a4 & E4 & S4). simpl in E4, S4.
      exists ((a0 ++ [Ev ExistingConfig a]) ++ a2 ++ [Log msg_will_reset] ++ a3 ++ a4), a.
      split_and!.
      * rewrite E4, E3. subst st3. simpl. rewrite E2, E1. by rewrite <- !app_assoc.
      * rewrite !elem_of_app, list_elem_of_singleton. by left; right.
      * rewrite Ha. simpl. right. exists rerr, d, (calls a4).
        split; [|exact S4]. by rewrite !calls_app, ?calls_log, !calls_app, I0, I2, I3, calls_call.
    + unfold ret in E. simpl in E. injection E as <- <-.
      exists ((a0 ++ [Ev ExistingConfig a]) ++ a2), a. split_and!.
      * rewrite E2, E1. by rewrite <- !app_assoc.
      * rewrite !elem_of_app, list_elem_of_singleton. by left; right.
      * rewrite Ha. simpl. left. split; [|done]. by rewrite calls_app, C1, I2.
Qed.






End StartCluster_theorems.
(** *** The theorems at sample worlds *)







(* ===================================================================== *)
(** * Part III: further properties of the embedded code                   *)
(* ===================================================================== *)

(** ** pkg/minikube/node: [Retrieve] and [Delete] *)

Section node_more.
Import config node.

Lemma retrieve_from_spec (ns : list Node) (name : string) (k : nat) :
  match retrieve_from k ns name with
  | Some (n, i) =>
      (k ≤ i)%nat ∧ ns !! (i - k)%nat = Some n ∧ Name n = name
      ∧ Forall (λ m, Name m ≠ name) (take (i - k) ns)
  | None => Forall (λ m, Name m ≠ name) ns
  end.
Proof.
  revert k. induction ns as [|n ns IH]; intros k; simpl; [constructor|].
  destruct (decide (Name n = name)) as [Hn|Hn].
  - replace (k - k)%nat with 0%nat by lia. simpl. split_and!; first [lia | done | constructor].
  - specialize (IH (S k)). destruct (retrieve_from (S k) ns name) as [[m i]|].
    + destruct IH as (Hle & Hlook & Hname & Hbefore).
      replace (i - k)%nat with (S (i - S k)) by lia. simpl.
      split_and!; [lia | done | done | by constructor].
    + by constructor.
Qed.

(** X1.  [Retrieve] returns the first node with the given name, with its
    index: the node is at that index, and no node before it has the
    name. *)
Theorem Retrieve_first (cc : MachineConfig) (name : string) (n : Node) (i : nat) :
  Retrieve cc name = inl (n, i) →
  Nodes cc !! i = Some n ∧ Name n = name
  ∧ Forall (λ m, Name m ≠ name) (take i (Nodes cc)).
Proof.
  unfold Retrieve. pose proof (retrieve_from_spec (Nodes cc) name 0) as H.
  destruct (retrieve_from 0 (Nodes cc) name) as [[m j]|]; [|discriminate].
  intros [= -> ->]. rewrite Nat.sub_0_r in H. tauto.
Qed.

(** X2.  [Retrieve] fails exactly when no node has the name; the error names
    the node that was asked for. *)
Theorem Retrieve_error_iff (cc : MachineConfig) (name : string) :
  (∃ err, Retrieve cc name = inr err)
  ↔ Forall (λ m, Name m ≠ name) (Nodes cc).
Proof.
  unfold Retrieve. pose proof (retrieve_from_spec (Nodes cc) name 0) as H.
  destruct (retrieve_from 0 (Nodes cc) name) as [[m j]|].
  - rewrite Nat.sub_0_r in H. destruct H as (_ & Hlook & Hname & _). split.
    + intros [err Herr]. discriminate Herr.
    + intros HF. rewrite Forall_forall in HF.
      apply list_elem_of_lookup_2 in Hlook. by apply HF in Hlook.
  - split; [done | by eexists].
Qed.

(** X3.  [Delete] of a name no node has: the error of [Retrieve] is returned,
    the configuration and the profile store are left as they were, and
    nothing is saved. *)
Theorem Delete_unknown_node (disk_fails : string → option error)
    (profile : string) (cc : MachineConfig) (disk : Profiles) (name : string) :
  Forall (λ m, Name m ≠ name) (Nodes cc) →
  Delete disk_fails profile cc disk name
  = mkDeleteResult cc disk (Some (New ("Could not find node " +:+ name))).
Proof.
  intros HF. unfold Delete, Retrieve.
  pose proof (retrieve_from_spec (Nodes cc) name 0) as H.
  destruct (retrieve_from 0 (Nodes cc) name) as [[m j]|]; [|done].
  rewrite Nat.sub_0_r in H. destruct H as (_ & Hlook & Hname & _).
  rewrite Forall_forall in HF. apply list_elem_of_lookup_2 in Hlook.
  by apply HF in Hlook.
Qed.

(** X4.  [Delete] of a name some node has removes exactly the first node with
    that name: the nodes before and after it stay, in order, and the
    configuration is one node shorter.  The new configuration is what is
    saved, and the error returned is that of the save. *)
Theorem Delete_removes_first (disk_fails : string → option error)
    (profile : string) (cc : MachineConfig) (disk : Profiles) (name : string)
    (n : Node) (i : nat) :
  Retrieve cc name = inl (n, i) →
  let r := Delete disk_fails profile cc disk name in
  Nodes (del_cc r) = take i (Nodes cc) ++ drop (S i) (Nodes cc)
  ∧ S (length (Nodes (del_cc r))) = length (Nodes cc)
  ∧ (del_err r, del_disk r) = SaveProfile disk_fails profile (del_cc r) disk.
Proof.
  intros HR.
  assert (Nodes cc !! i = Some n) as Hlook.
  { unfold Retrieve in HR.
    pose proof (retrieve_from_spec (Nodes cc) name 0) as H.
    destruct (retrieve_from 0 (Nodes cc) name) as [[m j]|]; [|discriminate].
    injection HR as -> ->. rewrite Nat.sub_0_r in H. tauto. }
  unfold Delete. rewrite HR. simpl.
  apply lookup_lt_Some in Hlook.
  destruct (SaveProfile _ _ _ _) as [err d] eqn:E; simpl. rewrite E.
  split_and!; try done. rewrite length_app, length_take, length_drop. lia.
Qed.

Lemma Add_appends (disk_fails : string → option error)
    (cc : MachineConfig) (disk : Profiles) (name : string)
    (controlPlane worker : bool) (k8sVersion profileName : string) :
  ∃ n, Nodes (add_cc (Add disk_fails cc disk name controlPlane worker
                        k8sVersion profileName)) = Nodes cc ++ [n]
       ∧ Name n = name.
Proof.
  unfold Add, SaveProfile.
  destruct controlPlane, worker, (decide (k8sVersion ≠ "")),
    (disk_fails profileName); simpl; eexists; split; reflexivity.
Qed.

(** X5.  Adding a node under a name no node has yet and deleting that name
    again gives back the list of nodes, whatever the two saves did. *)
Theorem Add_then_Delete (disk_fails : string → option error)
    (MachineProfile : string) (cc : MachineConfig) (disk : Profiles)
    (name : string) (controlPlane worker : bool)
    (k8sVersion profileName : string) :
  Forall (λ m, Name m ≠ name) (Nodes cc) →
  let added := Add disk_fails cc disk name controlPlane worker k8sVersion
                 profileName in
  Nodes (del_cc (Delete disk_fails MachineProfile (add_cc added)
                   (add_disk added) name))
  = Nodes cc.
Proof.
  intros HF.
  destruct (Add_appends disk_fails cc disk name controlPlane worker
              k8sVersion profileName) as (n & Hn & Hname).
  simpl. set (added := Add _ _ _ _ _ _ _ _) in *.
  unfold Delete, Retrieve.
  pose proof (retrieve_from_spec (Nodes (add_cc added)) name 0) as H.
  destruct (retrieve_from 0 (Nodes (add_cc added)) name) as [[m j]|].
  - rewrite Nat.sub_0_r in H. destruct H as (_ & Hlook & Hm & Hbefore).
    rewrite Hn in Hlook.
    assert (j = length (Nodes cc)) as ->.
    { destruct (decide (j < length (Nodes cc))%nat) as [Hlt|Hge].
      - rewrite lookup_app_l in Hlook by done.
        rewrite Forall_forall in HF. apply list_elem_of_lookup_2 in Hlook.
        by apply HF in Hlook.
      - apply lookup_lt_Some in Hlook. rewrite length_app in Hlook.
        simpl in Hlook. lia. }
    destruct (SaveProfile _ _ _ _) as [err d]. simpl. rewrite Hn.
    rewrite take_app_length, drop_app_ge by lia.
    replace (S (length (Nodes cc)) - length (Nodes cc))%nat with 1%nat by lia.
    simpl. by rewrite app_nil_r.
  - exfalso. rewrite Hn, Forall_app, Forall_singleton in H. by destruct H.
Qed.

End node_more.

Lemma Retrieve_first_witness :
  node.Retrieve node.sample_config "m02"
    = inl (config.mkNode "m02" "" 0 "v1.18.0" false true, 1%nat)
  ∧ config.Nodes node.sample_config !! 1%nat
    = Some (config.mkNode "m02" "" 0 "v1.18.0" false true).
Proof.
  split; [reflexivity|].
  apply (Retrieve_first node.sample_config "m02"
           (config.mkNode "m02" "" 0 "v1.18.0" false true) 1%nat).
  reflexivity.
Defined.

Lemma Delete_unknown_node_witness :
  node.del_cc (node.Delete node.sound_disk "minikube" node.sample_config ∅ "m03")
  = node.sample_config.
Proof.
  rewrite (Delete_unknown_node node.sound_disk "minikube" node.sample_config ∅ "m03").
  - reflexivity.
  - repeat (apply List.Forall_cons; [discriminate|]). apply List.Forall_nil.
Defined.

Lemma Delete_removes_first_witness :
  config.Nodes (node.del_cc (node.Delete node.sound_disk "minikube"
                               node.sample_config ∅ "m01"))
  = [config.mkNode "m02" "" 0 "v1.18.0" false true].
Proof.
  destruct (Delete_removes_first node.sound_disk "minikube" node.sample_config ∅
              "m01" (config.mkNode "m01" "" 0 "v1.18.0" true true) 0%nat)
    as (H & _); [reflexivity|].
  rewrite H. reflexivity.
Defined.

Lemma Add_then_Delete_witness :
  config.Nodes
    (node.del_cc
       (node.Delete node.sound_disk "minikube"
          (node.add_cc (node.Add node.sound_disk node.sample_config ∅ "m03"
                          false true "" "minikube"))
          (node.add_disk (node.Add node.sound_disk node.sample_config ∅ "m03"
                            false true "" "minikube"))
          "m03"))
  = config.Nodes node.sample_config.
Proof.
  apply (Add_then_Delete node.sound_disk "minikube" node.sample_config ∅ "m03"
           false true "" "minikube").
  repeat (apply List.Forall_cons; [discriminate|]). apply List.Forall_nil.
Defined.

(** ** pkg/minikube/bootstrapper/kubeadm: loops, guards, the client *)

Section kubeadm_more.
Import golang config kubeadm.
Variable w : World.

Lemma run_each_stops (cmds : list (list string)) (st : State) :
  ∃ answers,
    trace (run_each w cmds st).2 = trace st ++ ran cmds answers
    ∧ k8sClient (run_each w cmds st).2 = k8sClient st
    ∧ stops_at_first_error cmds answers (run_each w cmds st).1.
Proof.
  revert st. induction cmds as [|c cmds IH]; intros st.
  - exists []. simpl. rewrite app_nil_r. split_and!; try done.
  - simpl. unfold bind at 1, run, bind, call, ret. simpl.
    set (a := answer w (trace st) (RunCmd c)).
    destruct (a_err a) as [e|] eqn:Ha.
    + exists [a]. unfold ran. simpl. rewrite zip_with_nil_r.
      split_and!; try done. split; [simpl; lia|].
      exists [], a. split_and!; [done | done | constructor].
    + destruct (IH (mkState (k8sClient st) (trace st ++ [Ev (RunCmd c) a])))
        as (answers & E & K & Hlen & Hr).
      exists (a :: answers). split_and!.
      * rewrite E. simpl. by rewrite <- app_assoc.
      * exact K.
      * split; [simpl; lia|].
        destruct (run_each w cmds _).1 as [e|].
        -- destruct Hr as (before & b & -> & Hb & Hbefore).
           exists (a :: before), b. split_and!; [done | done | by constructor].
        -- destruct Hr as [Hl Hall]. split; [simpl; lia | by constructor].
Qed.

(** X6.  [clearStaleConfigs] without a primary control plane returns the
    error of the lookup and runs nothing.  With one, it runs the four
    grep-or-remove commands in order and stops at the first that fails:
    what it adds to the history is an initial part of the four commands,
    each answer but the last is a success, and the result is nil exactly
    when all four ran, the error of the last command otherwise. *)
Theorem clearStaleConfigs_stops_at_first_error (cfg : ClusterConfig) (st : State) :
  match PrimaryControlPlane w cfg with
  | inr err => clearStaleConfigs w cfg st = (Some err, st)
  | inl cp =>
      ∃ answers,
        trace (clearStaleConfigs w cfg st).2
          = trace st ++ ran (stale_cmds cp) answers
        ∧ stops_at_first_error (stale_cmds cp) answers
            (clearStaleConfigs w cfg st).1
  end.
Proof.
  unfold clearStaleConfigs. destruct (PrimaryControlPlane w cfg) as [cp|err]; [|done].
  destruct (run_each_stops (stale_cmds cp) st) as (answers & E & _ & H).
  by exists answers.
Qed.

(** *** The order of the checks of [needsReset] *)


(** *** No container call on an empty list *)

Ltac cstep :=
  first
    [ apply emits_ret | apply emits_get | apply cache_emits
    | apply emit_emits; exact I
    | apply call_emits; intros ?;
        first [ exact I
              | simpl; intros Hnil; rewrite Hnil in *; simpl in *; lia ]
    | apply emits_bind; [|intros ?]
    | match goal with
      | |- emits _ _ (match ?x with _ => _ end) => destruct x
      | |- emits _ _ (if ?x then _ else _) => destruct x
      | |- emits _ _ (let _ := _ in _) => cbv zeta
      end ].

Lemma run_names (argv : list string) :
  emits trace names_containers (run w argv).
Proof. unfold run. repeat cstep. Qed.

Lemma run_each_names (cmds : list (list string)) :
  emits trace names_containers (run_each w cmds).
Proof.
  induction cmds as [|c cmds IH]; simpl; [repeat cstep|].
  apply emits_bind; [apply run_names|]. intros [e|]; [repeat cstep | exact IH].
Qed.

Lemma Expo_names (n : nat) (f : M State (option error)) :
  emits trace names_containers f → emits trace names_containers (Expo n f).
Proof.
  intros Hf. induction n as [|n IH]; simpl;
    (apply emits_bind; [exact Hf|]); intros [e|]; first [exact IH | repeat cstep].
Qed.

Lemma clearStaleConfigs_names (cfg : ClusterConfig) :
  emits trace names_containers (clearStaleConfigs w cfg).
Proof.
  unfold clearStaleConfigs. destruct (PrimaryControlPlane w cfg); [|repeat cstep].
  apply run_each_names.
Qed.

Lemma unpause_names (cfg : ClusterConfig) :
  emits trace names_containers (unpause w cfg).
Proof. unfold unpause, invoke. repeat cstep. Qed.

Lemma DeleteCluster_names (k8s : KubernetesConfig) :
  emits trace names_containers (DeleteCluster w k8s).
Proof.
  unfold DeleteCluster, invoke. repeat first [ apply run_names | cstep ].
Qed.

Lemma init_names (cfg : ClusterConfig) :
  emits trace names_containers (init w cfg).
Proof.
  unfold init, invoke.
  repeat first [ apply clearStaleConfigs_names | apply run_names | cstep ].
Qed.

Lemma restartCluster_names (cc : ClusterConfig) :
  emits trace names_containers (restartCluster w cc).
Proof.
  unfold restartCluster, invoke, createCompatSymlinks, client, needsReset,
    reconfigure, log.
  repeat first
    [ apply clearStaleConfigs_names | apply run_names | apply run_each_names
    | apply Expo_names | cstep ].
Qed.

(** X8.  In a whole run of [StartCluster], through [unpause], [restartCluster],
    [DeleteCluster] and [init], the container runtime is never asked to
    unpause or to stop an empty list of containers. *)
Theorem StartCluster_names_containers (cfg : ClusterConfig) (st : State) :
  ∃ added, trace (StartCluster w cfg st).2 = trace st ++ added
           ∧ Forall names_containers added.
Proof.
  revert st. change (emits trace names_containers (StartCluster w cfg)).
  unfold StartCluster, log.
  repeat first
    [ apply unpause_names | apply restartCluster_names
    | apply DeleteCluster_names | apply init_names | apply run_names | cstep ].
Qed.

(** *** The cached client *)

(** X9.  [client] caches the client it could make, and only then: after a
    call that returned a client, every further call, for whatever
    address, returns that client without calling anything; after a call
    that failed, no client is cached. *)
Theorem client_caches_success_only (ip : string) (port : Z) (st : State) :
  let st' := (client w ip port st).2 in
  match (client w ip port st).1 with
  | inl c => ∀ ip' port', client w ip' port' st' = (inl c, st')
  | inr _ => k8sClient st' = None
  end.
Proof.
  unfold client, bind, get, call, modify, ret. simpl.
  destruct (k8sClient st) as [c|] eqn:Hc; simpl.
  - intros ip' port'. by rewrite Hc.
  - destruct (a_err (answer w (trace st) (ClientConfig _))) as [e|]; simpl;
      [exact Hc|].
    destruct (a_err (answer w _ (NewForConfig _))) as [e|]; simpl; [exact Hc|].
    done.
Qed.

(** *** What the result of [StartCluster] means *)

(** X10.  [StartCluster] returns nil exactly when the last method it ran was
    a [restartCluster] or an [init] that returned nil. *)
Theorem StartCluster_success_iff (cfg : ClusterConfig) (st : State) :
  ∃ added, trace (StartCluster w cfg st).2 = trace st ++ added
           ∧ ((StartCluster w cfg st).1 = None ↔ ended_well (calls added)).
Proof.
  destruct (StartCluster_shape w cfg st) as (added & a & E & _ & Hs).
  exists added. split; [exact E|].
  assert (∀ cs r, init_shape cs r →
            (r = None ↔ ended_well cs)
            ∧ (cs = [] ∨ ∃ m, last cs = Some (Leave Minit m))) as Hinit.
  { intros cs r [[-> (e & ->)]|[[-> ->]|(e & d & ->)]]; unfold ended_well; simpl.
    - split; [|by left]. split; [done | intros [H|H]; discriminate H].
    - split; [|right; by eexists]. split; [by right | done].
    - split; [|right; by eexists]. split.
      + intros ->. by right.
      + intros [H|H]; [discriminate H | by injection H]. }
  destruct (bool_decide (a_err a = None)); simpl in Hs.
  - destruct Hs as [[-> ->]|(e & d & rest & -> & Hrest)].
    + split; [intros _; by left | done].
    + destruct (Hinit _ _ Hrest) as [Hiff Hlast]. rewrite Hiff.
      unfold ended_well. destruct Hlast as [->|(m & Hm)].
      * simpl. split; intros [H|H]; discriminate H.
      * destruct rest as [|x rest]; [discriminate Hm|]. done.
  - by destruct (Hinit _ _ Hs).
Qed.

(** *** What the results of [init] and [DeleteCluster] mean *)






(** *** The order of the commands of a reconfiguration *)

Lemma commands_app (t1 t2 : list Event) :
  commands (t1 ++ t2) = commands t1 ++ commands t2.
Proof. unfold commands. by rewrite omap_app. Qed.

Lemma commands_ran (cmds : list (list string)) (answers : list Answer) :
  commands (ran cmds answers) = take (length answers) cmds.
Proof.
  revert answers. induction cmds as [|c cmds IH]; intros [|a answers]; try done.
  unfold ran, commands in *. simpl. by rewrite IH.
Qed.

Lemma follows_seq {A} (good : A → bool) (s1 : list (list string))
    (s2 s : nat → list (list string)) (b : nat)
    (m : M State A) (k : A → M State (option error)) :
  (∀ n, s n = s1 ++ s2 n) →
  (1 ≤ b)%nat →
  (∀ st, ∃ added, trace (m st).2 = trace st ++ added
                  ∧ commands added `prefix_of` s1
                  ∧ (good (m st).1 = true → commands added = s1)) →
  (∀ a, good a = false → ∀ st, ∃ e, k a st = (Some e, st)) →
  (∀ a, good a = true → follows s2 b (k a)) →
  follows s b (bind m k).
Proof.
  intros Hs Hb Hm Hbad Hk st. unfold bind.
  destruct (Hm st) as (a1 & E1 & P1 & G1).
  destruct (m st) as [a st1]. simpl in *.
  destruct (good a) eqn:Hg.
  - destruct (Hk a Hg st1) as (n & a2 & Hn & E2 & P2 & G2).
    exists n, (a1 ++ a2). split_and!; try lia.
    + rewrite E2, E1. by rewrite <- app_assoc.
    + rewrite Hs, commands_app, (G1 eq_refl). by apply prefix_app.
    + intros Hr. by rewrite Hs, commands_app, (G1 eq_refl), (G2 Hr).
  - destruct (Hbad a Hg st1) as (e & ->). simpl.
    exists 1%nat, a1. split_and!; try lia; try done.
    rewrite Hs. by apply prefix_app_r.
Qed.

Lemma run_script (c : list string) (st : State) :
  ∃ added, trace (run w c st).2 = trace st ++ added
           ∧ commands added `prefix_of` [c]
           ∧ (returned_nil (run w c st).1 = true → commands added = [c]).
Proof. by exists [Ev (RunCmd c) (answer w (trace st) (RunCmd c))]. Qed.

Lemma run_each_script (cmds : list (list string)) (st : State) :
  ∃ added, trace (run_each w cmds st).2 = trace st ++ added
           ∧ commands added `prefix_of` cmds
           ∧ (returned_nil (run_each w cmds st).1 = true → commands added = cmds).
Proof.
  destruct (run_each_stops cmds st) as (answers & E & _ & Hlen & Hr).
  exists (ran cmds answers). rewrite commands_ran. split_and!; [done| |].
  - exists (drop (length answers) cmds). by rewrite take_drop.
  - unfold returned_nil. intros Hs. apply bool_decide_eq_true_1 in Hs.
    rewrite Hs in Hr. destruct Hr as [Hl _]. by rewrite take_ge by lia.
Qed.

Lemma call_script (o : Op) (st : State) :
  (∀ a, command_of (Ev o a) = None) →
  ∃ added, trace (call w o st).2 = trace st ++ added
           ∧ commands added `prefix_of` []
           ∧ (answered (call w o st).1 = true → commands added = []).
Proof.
  intros Ho. exists [Ev o (answer w (trace st) o)].
  specialize (Ho (answer w (trace st) o)).
  unfold commands. simpl in *. by rewrite Ho.
Qed.

Lemma Expo_attempts (c : list string) (n : nat) (st : State) :
  ∃ k added, (1 ≤ k ≤ S n)%nat
    ∧ trace (Expo n (run w c) st).2 = trace st ++ added
    ∧ commands added = replicate k c.
Proof.
  revert st. induction n as [|n IH]; intros st; simpl;
    unfold bind at 1, run, bind, call, ret; simpl;
    set (a := answer w (trace st) (RunCmd c)).
  - exists 1%nat, [Ev (RunCmd c) a]. split_and!; try lia; try done.
    by destruct (a_err a).
  - destruct (a_err a) as [e|].
    + destruct (IH (mkState (k8sClient st) (trace st ++ [Ev (RunCmd c) a])))
        as (k & added & Hk & E & Hc).
      exists (S k), (Ev (RunCmd c) a :: added). split_and!; try lia.
      * unfold run, bind, call, ret in E. simpl in E. rewrite E. simpl.
        by rewrite <- app_assoc.
      * change (Ev (RunCmd c) a :: added) with ([Ev (RunCmd c) a] ++ added).
        rewrite commands_app, Hc. done.
    + exists 1%nat, [Ev (RunCmd c) a]. split_and!; try lia; done.
Qed.

(** X13.  The commands [restartCluster] itself runs once a reset is needed
    come in a fixed order: the four stale-config commands, the copy of
    the new config, the four kubeadm phases (certs, kubeconfig, control
    plane, etcd), then the addon phase, tried at least once and at most
    once more than the retry budget allows.  Whatever fails, the commands
    run are an initial part of that script; when the reconfiguration
    returns nil, the whole script was run. *)
Theorem reconfigure_order (cc : ClusterConfig) (version : semver)
    (hostname : string) (port : Z) (cp : Node) (st : State) :
  PrimaryControlPlane w cc = inl cp →
  ∃ n added,
    (1 ≤ n ≤ S (retries w))%nat
    ∧ trace (reconfigure w cc version hostname port st).2 = trace st ++ added
    ∧ commands added `prefix_of` reconfigure_script w cc version cp n
    ∧ ((reconfigure w cc version hostname port st).1 = None →
       commands added = reconfigure_script w cc version cp n).
Proof.
  intros Hcp. revert st.
  change (follows (reconfigure_script w cc version cp) (S (retries w))
            (reconfigure w cc version hostname port)).
  assert (∀ e st, ∃ e', (ret (Some e) : M State (option error)) st = (Some e', st))
    as Hret by (intros e st; by exists e).
  unfold reconfigure.
  eapply (follows_seq returned_nil (stale_cmds cp)); [reflexivity | lia | | |].
  { intros st. unfold clearStaleConfigs. rewrite Hcp. apply run_each_script. }
  { intros [e|]; [intros _; apply Hret | discriminate]. }
  intros [e|]; [discriminate|intros _].
  eapply (follows_seq returned_nil [cp_cmd w]); [reflexivity | lia | | |].
  { intros st. apply run_script. }
  { intros [e|]; [intros _; apply Hret | discriminate]. }
  intros [e|]; [discriminate|intros _].
  eapply (follows_seq returned_nil (phase_cmds w cc version));
    [reflexivity | lia | | |].
  { intros st. apply run_each_script. }
  { intros [e|]; [intros _; apply Hret | discriminate]. }
  intros [e|]; [discriminate|intros _].
  do 4 (eapply (follows_seq answered []); [reflexivity | lia | | |];
        [ intros st; by apply call_script
        | let a := fresh "a" in let Ha := fresh "Ha" in
          intros a Ha; unfold answered in Ha; apply bool_decide_eq_false_1 in Ha;
          destruct (a_err a); [apply Hret | done]
        | let a := fresh "a" in let Ha := fresh "Ha" in
          intros a Ha; unfold answered in Ha; apply bool_decide_eq_true_1 in Ha;
          rewrite Ha; clear Ha ]).
  intros st. unfold bind at 1.
  destruct (Expo_attempts (addon_cmd w cc version) (retries w) st)
    as (k & added & Hk & E & Hc).
  destruct (Expo (retries w) (run w (addon_cmd w cc version)) st) as [ad st1].
  simpl in E. destruct ad as [e|]; simpl.
  - exists k, added. split_and!; [lia | lia | done | by rewrite Hc | done].
  - exists k, (added ++ [Ev AdjustResourceLimits (answer w (trace st1) AdjustResourceLimits)]).
    unfold bind, call, ret. simpl. rewrite commands_app, Hc. simpl.
    rewrite app_nil_r. split_and!; [lia | lia | | done | done].
    rewrite E. by rewrite <- app_assoc.
Qed.

End kubeadm_more.

Lemma reconfigure_order_witness :
  ∃ n added,
    (1 ≤ n ≤ S (kubeadm.retries kubeadm.healthy_world))%nat
    ∧ kubeadm.trace
        (kubeadm.reconfigure kubeadm.healthy_world kubeadm.sample_cluster
           (1, 18, 0)%nat "192.168.39.2" 8443 kubeadm.fresh).2
      = kubeadm.trace kubeadm.fresh ++ added
    ∧ kubeadm.commands added
      `prefix_of` kubeadm.reconfigure_script kubeadm.healthy_world
                    kubeadm.sample_cluster (1, 18, 0)%nat kubeadm.sample_node n
    ∧ ((kubeadm.reconfigure kubeadm.healthy_world kubeadm.sample_cluster
          (1, 18, 0)%nat "192.168.39.2" 8443 kubeadm.fresh).1 = None →
       kubeadm.commands added
       = kubeadm.reconfigure_script kubeadm.healthy_world
           kubeadm.sample_cluster (1, 18, 0)%nat kubeadm.sample_node n).
Proof.
  apply (reconfigure_order kubeadm.healthy_world kubeadm.sample_cluster
           (1, 18, 0)%nat "192.168.39.2" 8443 kubeadm.sample_node kubeadm.fresh).
  reflexivity.
Defined.

(** ** pkg/minikube/machine: the lock of [Create] *)

Section machine_more.
Import golang machine.

Ltac create_cases :=
  repeat match goal with
  | |- context [match answer ?w ?t ?o with _ => _ end] =>
      destruct (answer w t o) eqn:?; simpl
  | |- context [if BareMetal ?w ?n then _ else _] =>
      destruct (BareMetal w n) eqn:?; simpl
  end.

(** X14.  For an in-process driver, [Create] never keeps the lock: when the
    lock cannot be taken within the timeout nothing else is called, the
    certificates are not touched; when it is taken, the certificates are
    bootstrapped and the lock is released right away, whether or not the
    bootstrap failed, before any other step is run; and no later step
    takes the lock again. *)
Theorem Create_lock_discipline (w : World) (h : Host) (tr : list Event) :
  in_process (registry w (DriverName h)) →
  ∃ added, (Create w h tr).2 = tr ++ added ∧ lock_discipline added.
Proof.
  intros [HE HI]. unfold Create. rewrite HE, HI. simpl.
  unfold lock_discipline, bootstrapping_certificates, waiting, call, perform,
    bind, ret. simpl.
  create_cases; rewrite <- ?app_assoc; simpl;
    (eexists; split; [reflexivity|]);
    first
      [ left; eexists; reflexivity
      | right; eexists _, _, _; split_and!;
        [ reflexivity
        | repeat (apply List.Forall_cons; [simpl; lia|]); apply List.Forall_nil
        | first [ reflexivity | intros H; congruence ] ] ].
Qed.

End machine_more.

Lemma Create_lock_discipline_witness :
  ∃ added, (machine.Create machine.calm_world machine.sample_host []).2 = [] ++ added
           ∧ machine.lock_discipline added.
Proof.
  apply (Create_lock_discipline machine.calm_world machine.sample_host []).
  split; reflexivity.
Defined.

(** ** libmachine/runner: sessions and the cached client *)

Section runner_more.
Import golang runner.
Variable w : World.

(** *** The cached client of [session] *)

Lemma getSession_outcome (st : State) :
  ∃ added,
    trace (getSession w st).2 = trace st ++ added
    ∧ S (self (getSession w st).2) = S (self st)
    ∧ match (getSession w st).1 with
      | inl sess =>
          ∃ c a before, C (self (getSession w st).2) = Some c
            ∧ added = before ++ [Ev (NewSession c) a]
            ∧ a_err a = None ∧ a_id a = sess
            ∧ Forall neutral before
      | inr _ => C (self (getSession w st).2) = None ∧ Forall neutral added
      end.
Proof.
  unfold getSession, client, bind, get, call, set_C, modify, ret. simpl.
  destruct (C (self st)) as [c|] eqn:Hc; simpl.
  - destruct (a_err (answer w (trace st) (NewSession c))) as [e|] eqn:Ha; simpl.
    + eexists. split; [reflexivity|]. split_and!; try done.
      apply Forall_singleton. intros open. simpl. by rewrite Ha.
    + eexists. split; [reflexivity|]. split; [done|].
      exists c, (answer w (trace st) (NewSession c)), []. by rewrite Hc.
  - destruct (a_err (answer w (trace st) NewSSHClient)) as [e|] eqn:Hn; simpl.
    + eexists. split; [reflexivity|]. split_and!; try done.
      by apply Forall_singleton.
    + match goal with |- context [NewSession ?c] => set (c0 := c) end.
      match goal with |- context [answer w ?t (NewSession c0)] =>
        set (a := answer w t (NewSession c0)) end.
      destruct (a_err a) as [e|] eqn:Ha; simpl.
      * rewrite <- app_assoc. eexists. split; [reflexivity|]. split_and!; try done.
        repeat (apply List.Forall_cons; [intros open; simpl; by rewrite ?Ha|]).
        apply List.Forall_nil.
      * rewrite <- app_assoc. eexists. split; [reflexivity|]. split; [done|].
        exists c0, a, [Ev NewSSHClient (answer w (trace st) NewSSHClient)].
        split_and!; try done. by apply Forall_singleton.
Qed.

Lemma session_retry_outcome (n : nat) (st : State) :
  ∃ added,
    trace (session_retry w n st).2 = trace st ++ added
    ∧ S (self (session_retry w n st).2) = S (self st)
    ∧ match (session_retry w n st).1 with
      | inl sess =>
          ∃ c a before, C (self (session_retry w n st).2) = Some c
            ∧ added = before ++ [Ev (NewSession c) a]
            ∧ a_err a = None ∧ a_id a = sess
            ∧ Forall neutral before
      | inr _ =>
          C (self (session_retry w n st).2) = None ∧ Forall neutral added
      end.
Proof.
  revert st. induction n as [|n IH]; intros st; simpl; unfold bind;
    pose proof (getSession_outcome st) as H;
    destruct (getSession w st) as [[sess|e] st1]; simpl in *; try exact H.
  destruct H as (a1 & E1 & S1 & C1 & N1).
  destruct (IH st1) as (a2 & E2 & S2 & H2).
  exists (a1 ++ a2). split_and!.
  - rewrite E2, E1. by rewrite <- app_assoc.
  - by rewrite S2.
  - destruct (session_retry w n st1).1 as [sess|e'].
    + destruct H2 as (c & a & before & Hc & -> & Ha & Hid & Hb).
      exists c, a, (a1 ++ before). split_and!; try done.
      * by rewrite <- app_assoc.
      * by apply Forall_app.
    + destruct H2 as [Hc Hn]. split; [done | by apply Forall_app].
Qed.

(** X15.  [session] keeps a client cached only while it works: when [session]
    fails, after all its retries, no client is cached, so that the next
    call dials again; when it returns a session, the client that opened
    it, in the last call [session] made, is the cached one. *)
Theorem session_client_cache (st : State) :
  let st' := (session w st).2 in
  match (session w st).1 with
  | inl sess =>
      ∃ c a before, C (self st') = Some c
        ∧ trace st' = before ++ [Ev (NewSession c) a]
        ∧ a_err a = None ∧ a_id a = sess
  | inr _ => C (self st') = None
  end.
Proof.
  unfold session. simpl.
  destruct (session_retry_outcome (retries w) st) as (added & E & _ & H).
  destruct (session_retry w (retries w) st).1 as [sess|e]; [|by destruct H].
  destruct H as (c & a & before & Hc & -> & Ha & Hid & _).
  exists c, a, (trace st ++ before). split_and!; try done.
  rewrite E. by rewrite <- app_assoc.
Qed.

(** *** Sessions are closed *)

Lemma open_after_app (open : list Session) (t1 t2 : list Event) :
  open_after open (t1 ++ t2) = open_after (open_after open t1) t2.
Proof. unfold open_after. by rewrite foldl_app. Qed.

Lemma open_after_neutral (open : list Session) (added : list Event) :
  Forall neutral added → open_after open added = open.
Proof.
  unfold open_after. intros H. revert open.
  induction H as [|e l He _ IH]; intros open; [done|]. simpl. by rewrite He.
Qed.

Lemma close_opened (s : Session) (open : list Session) :
  close_session s (s :: open) = open.
Proof. simpl. by rewrite decide_True. Qed.

(** What [session] leaves open: the session it returns. *)
Lemma session_opens (st : State) :
  ∃ added,
    trace (session w st).2 = trace st ++ added
    ∧ S (self (session w st).2) = S (self st)
    ∧ ∀ open, open_after open added
              = match (session w st).1 with
                | inl sess => sess :: open
                | inr _ => open
                end.
Proof.
  unfold session.
  destruct (session_retry_outcome (retries w) st) as (added & E & HS & H).
  exists added. split; [exact E|]. split; [exact HS|]. intros open.
  destruct (session_retry w (retries w) st).1 as [sess|e].
  - destruct H as (c & a & before & _ & -> & Ha & Hid & Hb).
    rewrite open_after_app, (open_after_neutral _ _ Hb).
    unfold open_after. simpl. by rewrite Ha, Hid.
  - destruct H as [_ Hn]. by apply open_after_neutral.
Qed.

Lemma neutral_call (o : Op) :
  (∀ a open, track open (Ev o a) = open) → emits trace neutral (call w o).
Proof.
  intros Ho st. exists [Ev o (answer w (trace st) o)]. split; [done|].
  apply Forall_singleton. intros open. apply Ho.
Qed.

Lemma neutral_emit (s : Session) (p : Stream) (done : bool) :
  emits trace neutral (emit (if done then Done s p else Spawn s p)).
Proof.
  intros st. eexists. split; [reflexivity|]. apply Forall_singleton.
  by destruct done.
Qed.

Lemma teeSSH_neutral (sess : Session) (c : string) :
  emits trace neutral (teeSSH w sess c).
Proof.
  unfold teeSSH. simpl.
  repeat first
    [ apply emits_ret
    | apply (neutral_emit _ _ true) | apply (neutral_emit _ _ false)
    | apply neutral_call; by intros
    | apply emits_bind; [|intros ?]
    | match goal with
      | |- emits _ _ (match ?x with _ => _ end) => destruct x
      end ].
Qed.

Ltac close_up :=
  intros open;
  rewrite ?open_after_app;
  repeat match goal with
         | H : ∀ open, open_after open _ = _ |- _ => rewrite !H
         | H : Forall neutral _ |- _ => rewrite !(open_after_neutral _ _ H)
         end;
  unfold open_after; simpl; by rewrite ?decide_True.

Lemma RunCmd_balanced (cmd : Cmd) : balanced (RunCmd w cmd).
Proof.
  intros st. unfold RunCmd. destruct (Stdin cmd).
  { exists []. simpl. by rewrite app_nil_r. }
  unfold bind at 1. destruct (session_opens st) as (a1 & E1 & _ & T1).
  destruct (session w st) as [[sess|err] st1]; simpl in *.
  2:{ exists a1. split; [exact E1 | exact T1]. }
  unfold bind at 1.
  destruct (teeSSH_neutral sess (Join w (Args cmd)) st1) as (a2 & E2 & N2).
  destruct (teeSSH w sess (Join w (Args cmd)) st1) as [[[err out] errout] st2].
  simpl in *. unfold bind, call. simpl.
  exists (a1 ++ a2 ++ [Ev (SessClose sess) (answer w (trace st2) (SessClose sess))]).
  split.
  - destruct err; simpl; rewrite E2, E1; by rewrite <- !app_assoc.
  - close_up.
Qed.

Lemma transfer_balanced (f : CopyableFile) (dst : string) :
  balanced (transfer w f dst).
Proof.
  intros st. unfold transfer. unfold bind at 1.
  destruct (session_opens st) as (a1 & E1 & _ & T1).
  destruct (session w st) as [[sess|err] st1]; simpl in *.
  { unfold call, bind, ret. simpl.
    destruct (a_err (answer w (trace st1) (StdinPipe sess))); simpl.
    - eexists (a1 ++ [_; _]). split; [rewrite E1; by rewrite <- !app_assoc|].
      close_up.
    - destruct (a_err (answer w _ (CombinedOutput _ _))); simpl.
      + eexists (a1 ++ [_; _; _]).
        split; [rewrite E1; by rewrite <- !app_assoc|]. close_up.
      + eexists (a1 ++ [_; _; _; _]).
        split; [rewrite E1; by rewrite <- !app_assoc|]. close_up. }
  exists a1. split; [exact E1 | exact T1].
Qed.

Lemma RemoveFile_balanced (f : CopyableFile) : balanced (RemoveFile w f).
Proof.
  intros st. unfold RemoveFile. unfold bind at 1.
  destruct (session_opens st) as (a1 & E1 & _ & T1).
  destruct (session w st) as [[sess|err] st1]; simpl in *.
  { unfold call, bind, ret. simpl.
    eexists (a1 ++ [_; _]). split; [rewrite E1; by rewrite <- !app_assoc|].
    close_up. }
  exists a1. split; [exact E1 | exact T1].
Qed.

(** X16.  [RunCmd], the transfer of [CopyFile] and [RemoveFile] close the
    session they open, on every path: whatever fails, the sessions open
    when they return are those that were open before. *)
Theorem sessions_closed (cmd : Cmd) (f : CopyableFile) (dst : string) :
  balanced (RunCmd w cmd) ∧ balanced (transfer w f dst)
  ∧ balanced (RemoveFile w f).
Proof.
  split_and!; [apply RunCmd_balanced | apply transfer_balanced
              | apply RemoveFile_balanced].
Qed.

(** *** [StartCmd] and [WaitCmd] together *)

(** X17.  A command that [StartCmd] started without error can be waited for:
    [WaitCmd] on the started command returns, with a run result for the
    arguments of the command; it has closed the session that [StartCmd]
    opened, and the session field is nil again, so that the next
    [StartCmd] is not refused. *)
Theorem StartCmd_WaitCmd_round_trip (cmd : Cmd) (st st1 : State)
    (sc : StartedCmd) :
  StartCmd w cmd st = ((Some sc, None), st1) →
  ∃ rr err st2,
    WaitCmd w sc st1 = (Returned (Some rr, err), st2)
    ∧ rrArgs rr = Args cmd
    ∧ S (self st2) = None
    ∧ ∃ added, trace st2 = trace st ++ added
               ∧ ∀ open, open_after open added = open.
Proof.
  unfold StartCmd. destruct (Stdin cmd); [discriminate|].
  unfold bind at 1, get. destruct (S (self st)) eqn:HS; [discriminate|].
  unfold bind at 1. destruct (session_opens st) as (a1 & E1 & _ & T1).
  destruct (session w st) as [[sess|err] st0]; [|discriminate]. simpl in *.
  unfold teeSSHStart, set_S, call, emit, modify, bind, ret. simpl.
  destruct (a_err (answer w _ (StdoutPipe sess))); simpl; [discriminate|].
  destruct (a_err (answer w _ (StderrPipe sess))); simpl; [discriminate|].
  intros H. injection H as <- Herr <-.
  unfold WaitCmd, wg_Wait. unfold bind at 1, get. simpl.
  unfold bind at 1, call. simpl.
  unfold call, set_S, emit, modify, bind, ret. simpl.
  match goal with |- context [a_err (answer w ?t (SessWait sess))] =>
    destruct (a_err (answer w t (SessWait sess))) end; simpl;
    (eexists _, _, _; split_and!;
       [ reflexivity
       | first [ reflexivity
               | match goal with
                 | |- context [match ?e with ExitError _ => _ | _ => _ end] =>
                     by destruct e
                 end ]
       | reflexivity |]);
    simpl; rewrite E1, <- !app_assoc; simpl;
    (eexists; split; [reflexivity|]); close_up.
Qed.

(** X18.  When [StartCmd] has its session but cannot have one of the two output
    pipes, it returns the started command with an error and leaves the
    session field set, with no pump on the wait group.  From then on
    [WaitCmd] on that started command never returns, and every further
    [StartCmd] is refused and changes nothing. *)
Theorem StartCmd_pipe_failure_blocks (cmd : Cmd) (st st0 : State)
    (sess : Session) :
  Stdin cmd = None →
  S (self st) = None →
  session w st = (inl sess, st0) →
  pipe_fails w sess (trace st0) →
  ∃ sc err st1,
    StartCmd w cmd st = ((Some sc, Some err), st1)
    ∧ S (self st1) = Some sess
    ∧ (WaitCmd w sc st1).1 = Blocked
    ∧ ∀ cmd', ∃ err', StartCmd w cmd' st1 = ((None, Some err'), st1).
Proof.
  intros Hin HS Hsess Hpipe.
  assert (∀ st1, S (self st1) = Some sess →
            ∀ cmd', ∃ err', StartCmd w cmd' st1 = ((None, Some err'), st1))
    as Hrefused.
  { intros st1 H1 cmd'. unfold StartCmd. destruct (Stdin cmd'); [by eexists|].
    unfold bind, get. rewrite H1. by eexists. }
  unfold StartCmd. rewrite Hin. unfold bind at 1, get. rewrite HS.
  unfold bind at 1. rewrite Hsess.
  unfold teeSSHStart, set_S, call, emit, modify, bind, ret. simpl.
  unfold pipe_fails in Hpipe.
  destruct (a_err (answer w (trace st0) (StdoutPipe sess))) as [e|] eqn:Ho; simpl.
  - eexists _, _, _. split_and!; [reflexivity | reflexivity | | by apply Hrefused].
    unfold WaitCmd, wg_Wait, bind, get, call, ret. simpl. done.
  - destruct Hpipe as [H|H]; [done|].
    destruct (a_err (answer w _ (StderrPipe sess))) as [e|] eqn:He; [|done]. simpl.
    eexists _, _, _. split_and!; [reflexivity | reflexivity | | by apply Hrefused].
    unfold WaitCmd, wg_Wait, bind, get, call, ret. simpl. done.
Qed.

End runner_more.

Lemma StartCmd_WaitCmd_round_trip_witness :
  (runner.StartCmd runner.calm_world runner.sample_cmd runner.fresh).1
  = (Some runner.sample_started, None)
  ∧ ∃ rr err st2,
      runner.WaitCmd runner.calm_world runner.sample_started
        (runner.StartCmd runner.calm_world runner.sample_cmd runner.fresh).2
      = (runner.Returned (Some rr, err), st2)
      ∧ runner.rrArgs rr = runner.Args runner.sample_cmd
      ∧ runner.S (runner.self st2) = None.
Proof.
  split; [reflexivity|].
  destruct (StartCmd_WaitCmd_round_trip runner.calm_world runner.sample_cmd
              runner.fresh
              (runner.StartCmd runner.calm_world runner.sample_cmd runner.fresh).2
              runner.sample_started)
    as (rr & err & st2 & H & Hargs & HS & _); [reflexivity|].
  by exists rr, err, st2.
Defined.

Lemma StartCmd_pipe_failure_blocks_witness :
  ∃ sc err st1,
    runner.StartCmd runner.broken_pipe_world runner.sample_cmd runner.fresh
    = ((Some sc, Some err), st1)
    ∧ runner.S (runner.self st1) = Some 7%nat
    ∧ (runner.WaitCmd runner.broken_pipe_world sc st1).1 = runner.Blocked
    ∧ ∀ cmd', ∃ err',
        runner.StartCmd runner.broken_pipe_world cmd' st1 = ((None, Some err'), st1).
Proof.
  apply (StartCmd_pipe_failure_blocks runner.broken_pipe_world runner.sample_cmd
           runner.fresh
           (runner.session runner.broken_pipe_world runner.fresh).2 7%nat).
  - reflexivity.
  - reflexivity.
  - reflexivity.
  - left. discriminate.
Defined.

(** ** cmd/minikube/cmd: the order of the calls of [runDelete] *)

Section cmd_more.
Import golang cmd.

Section staged.
Variables (trigger guard : Event → bool).

Lemma only_after_mono (seen b : bool) (l : list Event) :
  only_after trigger guard seen l = true →
  only_after trigger guard (seen || b) l = true.
Proof.
  revert seen. induction l as [|e l IH]; intros seen; [done|]. simpl.
  rewrite !andb_true_iff. intros [H1 H2]. split.
  - destruct (trigger e); [|done]. by rewrite H1.
  - replace (seen || b || guard e) with (seen || guard e || b)
      by (by destruct seen, b, (guard e)).
    by apply IH.
Qed.

Lemma only_after_quiet (seen : bool) (a1 a2 : list Event) :
  Forall (λ e, trigger e = false) a1 →
  only_after trigger guard seen a2 = true →
  only_after trigger guard seen (a1 ++ a2) = true.
Proof.
  intros H. revert seen. induction H as [|e a1 He _ IH]; intros seen H2; [done|].
  simpl. rewrite He. simpl. apply IH. by apply only_after_mono.
Qed.

Lemma staged_ret {A} (seen : bool) (x : A) : staged trigger guard seen (ret x).
Proof. intros tr. exists []. by rewrite app_nil_r. Qed.

Lemma staged_quiet {A B} (seen : bool) (m : M (list Event) A)
    (k : A → M (list Event) B) :
  emits id (λ e, trigger e = false) m →
  (∀ a, staged trigger guard seen (k a)) →
  staged trigger guard seen (bind m k).
Proof.
  intros Hm Hk tr. unfold bind. destruct (Hm tr) as (a1 & E1 & Q1).
  destruct (m tr) as [a tr1]. simpl in E1. unfold id in E1.
  destruct (Hk a tr1) as (a2 & E2 & H2).
  exists (a1 ++ a2). split; [rewrite E2, E1; by rewrite app_assoc|].
  by apply only_after_quiet.
Qed.

Lemma staged_call {B} (w : World) (seen : bool) (o : Op)
    (k : Answer → M (list Event) B) :
  (∀ a, (trigger (Ev o a) = true → seen = true)
        ∧ staged trigger guard (seen || guard (Ev o a)) (k a)) →
  staged trigger guard seen (bind (call w o) k).
Proof.
  intros H tr. unfold bind, call, perform.
  destruct (H (answer w tr o)) as [Ht Hk].
  destruct (Hk (tr ++ [Ev o (answer w tr o)])) as (a2 & E2 & H2).
  exists (Ev o (answer w tr o) :: a2). split; [rewrite E2; by rewrite <- app_assoc|].
  simpl. rewrite H2, andb_true_r.
  destruct (trigger (Ev o (answer w tr o))); [by apply Ht | done].
Qed.

Lemma staged_assoc {A B C} (seen : bool) (m : M (list Event) A)
    (k1 : A → M (list Event) B) (k2 : B → M (list Event) C) :
  staged trigger guard seen (bind m (λ a, bind (k1 a) k2)) →
  staged trigger guard seen (bind (bind m k1) k2).
Proof.
  intros H tr. destruct (H tr) as (added & E & G). exists added.
  split; [|exact G]. rewrite <- E. unfold bind. by destruct (m tr).
Qed.

Lemma quiet_mark (e : Event) :
  trigger e = false → emits id (λ e, trigger e = false) (mark e).
Proof. intros He tr. exists [e]. split; [done|]. by constructor. Qed.

Lemma quiet_call (w : World) (o : Op) :
  (∀ a, trigger (Ev o a) = false) →
  emits id (λ e, trigger e = false) (call w o).
Proof.
  intros Ho tr. exists [Ev o (answer w tr o)]. split; [done|]. by constructor.
Qed.

End staged.

Ltac qstep :=
  first
    [ apply emits_ret
    | apply quiet_mark; reflexivity
    | apply quiet_call; intros ?; reflexivity
    | apply emits_bind; [|intros ?]
    | match goal with
      | |- emits _ _ (match ?x with _ => _ end) => destruct x
      | |- emits _ _ (if ?x then _ else _) => destruct x
      end ].

Ltac sstep :=
  first
    [ apply staged_ret
    | apply staged_call; intros ?; split;
        [ simpl;
          first [ discriminate | reflexivity
                | intros _;
                  repeat match goal with
                         | H : a_err _ = _ |- _ => rewrite H; simpl
                         | H : Cause _ = _ |- _ => rewrite H; simpl
                         | H : a_driver _ = _ |- _ => rewrite H; simpl
                         end;
                  rewrite ?bool_decide_eq_true_2 by done;
                  rewrite ?orb_true_r; reflexivity ] |]
    | apply staged_quiet; [unfold skip; solve [repeat qstep]|intros ?]
    | match goal with
      | |- staged _ _ _ (match ?x with _ => _ end) => destruct x eqn:?
      | |- staged _ _ _ (if ?x then _ else _) => destruct x eqn:?
      | |- staged _ _ _ (bind (match ?x with _ => _ end) _) => destruct x eqn:?
      | |- staged _ _ _ (bind (if ?x then _ else _) _) => destruct x eqn:?
      | |- staged _ _ _ (bind (uninstallKubernetes _ _) _) =>
          unfold uninstallKubernetes
      | |- staged _ _ _ (bind (bind _ _) _) => apply staged_assoc
      end ].

(** X19.  [runDelete] writes the kubeconfig only after the profile directory
    was removed without error, and asks for the profile directory to be
    removed only after [DeleteHost] deleted the host or found that there
    is none. *)
Theorem runDelete_removal_order (w : World) (args : list string)
    (tr : list Event) :
  ∃ added, (runDelete w args tr).2 = tr ++ added
           ∧ only_after touches_kubeconfig removed_profile false added = true
           ∧ only_after removes_profile host_gone false added = true.
Proof.
  assert (staged touches_kubeconfig removed_profile false (runDelete w args)) as H1.
  { unfold runDelete, remove_profile, uninstallKubernetes. repeat sstep. }
  assert (staged removes_profile host_gone false (runDelete w args)) as H2.
  { unfold runDelete, remove_profile, uninstallKubernetes. repeat sstep. }
  destruct (H1 tr) as (a1 & E1 & G1). destruct (H2 tr) as (a2 & E2 & G2).
  assert (a1 = a2) as <- by (apply (app_inv_head tr); congruence).
  by exists a1.
Qed.

(** X20.  [runDelete] asks for a bootstrapper, to uninstall Kubernetes, only
    after the profile configuration was loaded without error and names
    the driver "none"; and the bootstrapper is asked to delete the
    cluster only after it was obtained without error. *)
Theorem runDelete_uninstall_guard (w : World) (args : list string)
    (tr : list Event) :
  ∃ added, (runDelete w args tr).2 = tr ++ added
           ∧ only_after uninstalls loaded_none false added = true
           ∧ only_after deletes_cluster got_bootstrapper false added = true.
Proof.
  assert (staged uninstalls loaded_none false (runDelete w args)) as H1.
  { unfold runDelete, remove_profile. repeat sstep. }
  assert (staged deletes_cluster got_bootstrapper false (runDelete w args)) as H2.
  { unfold runDelete, remove_profile. repeat sstep. }
  destruct (H1 tr) as (a1 & E1 & G1). destruct (H2 tr) as (a2 & E2 & G2).
  assert (a1 = a2) as <- by (apply (app_inv_head tr); congruence).
  by exists a1.
Qed.

End cmd_more.

(** ** pkg/drivers/ssh: stopping and killing *)

Section sshdriver_more.
Import sshdriver.
Variable answer : list Event → Op → Answer.

Ltac guest_cases :=
  repeat match goal with
  | |- context [match a_err (answer ?t ?o) with _ => _ end] =>
      destruct (a_err (answer t o)) eqn:?; simpl
  | |- context [decide (?x = 0%nat)] => destruct (decide (x = 0%nat)); simpl
  | |- context [decide (0 < ?x)%nat] => destruct (decide (0 < x)%nat); simpl
  end.

Ltac named :=
  repeat (apply List.Forall_cons;
          [ unfold names_containers; simpl;
            first [ exact I
                  | intros Hnil; rewrite Hnil in *; simpl in *; first [lia | done] ]
          |]);
  apply List.Forall_nil.

(** X21.  [StopMachine] and [KillMachine] never ask the container runtime to
    stop or to kill an empty list of containers.  [KillMachine] kills
    only after a graceful stop: whenever [KillContainers] is called, the
    containers were listed and stopped without error before, and the
    containers killed are those a second listing still found. *)
Theorem KillMachine_graceful_first (tr : list Event) :
  (∃ added, (StopMachine answer tr).2 = tr ++ added
            ∧ Forall names_containers added)
  ∧ (∃ added, (KillMachine answer tr).2 = tr ++ added
              ∧ Forall names_containers added
              ∧ ∀ ids k, Ev (KillContainers ids) k ∈ added →
                         graceful_kill added ids).
Proof.
  split.
  - unfold StopMachine, call, perform, bind, ret. simpl.
    guest_cases; rewrite <- ?app_assoc in *; simpl in *;
      (eexists; split; [reflexivity|]); named.
  - unfold KillMachine, call, perform, bind, ret. simpl.
    guest_cases; rewrite <- ?app_assoc in *; simpl in *;
      (eexists; split; [reflexivity|]); (split; [named|]);
      intros ids k Hin;
      repeat (apply elem_of_cons in Hin as [Hin|Hin]; [try discriminate Hin|]);
      try (by apply elem_of_nil in Hin).
    all: injection Hin as -> ->.
    all: unfold graceful_kill; eexists _, _, _, _, _; (split; [reflexivity|]).
    all: split_and!; try done.
    all: intros Hnil; rewrite Hnil in *; simpl in *; done.
Qed.

End sshdriver_more.

(** ** pkg/minikube/bootstrapper/kubeadm: [copyFiles] *)

Section copyFiles_more.
Import kubeadm.files.
Variable answer : list Event → Op → option error.



End copyFiles_more.
